(** * The tic-tac-toe client: [src/program/tic-tac-toe.js]

    A shallow embedding of the [TicTacToe] class: the static decoder
    [_getGameState], the liveness test [isPeerAlive], the change handler
    [_onAccountChange], the commands [keepAlive], [abandon] and [move], and
    the keep-alive loop armed by [scheduleNextKeepAlive].

    JavaScript values are an inductive type; a method is a function from the
    object to a result, the object afterwards and the external calls it made
    (a thrown error keeps the mutations done before the throw, as in the
    source).  The CBOR decoder, the [PublicKey] constructor and the number
    coercion of strings and objects belong to the runtime and its libraries:
    they are the fields of the class [Runtime]. *)

From Stdlib Require Import ZArith List String Ascii Bool Lia.
From Stdlib Require Import Init.Byte DecimalString.
Import ListNotations.
Local Open Scope string_scope.
Local Open Scope list_scope.
Local Open Scope Z_scope.

Set Implicit Arguments.
Set Warnings "-register-all".
Set Warnings "-automation".
Set Warnings "-notation-overridden".

(** ** JavaScript values *)

(** The values the CBOR decoder can hand back.  A number is an integer (the
    timestamps of the protocol are millisecond counts, far inside the range
    where JavaScript arithmetic is exact); [VObj] is a plain object, its
    fields in insertion order. *)
Inductive value : Type :=
| VUndefined
| VNull
| VBool (b : bool)
| VNum (n : Z)
| VStr (s : string)
| VBuffer (bytes : list byte)
| VArr (items : list value)
| VObj (fields : list (string * value)).

(** What a [throw] (or a rejected promise) carries.  The three [Error]s of
    the decoder are told apart by their message; [Foreign] is an error raised
    by a collaborator (CBOR, [PublicKey], the transaction layer). *)
Inductive Error : Type :=
| RangeError
| TypeError
| InvalidGameStateLength   (* Error(`Invalid game state length`) *)
| InvalidGameStateType     (* Error(`Invalid game state type: ...`) *)
| UnhandledGameState       (* Error(`Unhandled game state: ...`) *)
| Foreign (msg : string).

Inductive result (A : Type) : Type :=
| Ok (a : A)
| Throw (e : Error).

Arguments Ok {A} a.
Arguments Throw {A} e.

Definition rbind {A B : Type} (r : result A) (k : A -> result B) : result B :=
  match r with
  | Ok a => k a
  | Throw e => Throw e
  end.

Declare Scope result_scope.
Delimit Scope result_scope with result.
Notation "x <- r ;; k" := (rbind r (fun x => k))
  (at level 61, r at next level, right associativity) : result_scope.

(** [v === s] for a string literal [s]. *)
Definition strict_eq_str (v : value) (s : string) : bool :=
  match v with
  | VStr t => String.eqb t s
  | _ => false
  end.

(** ToBoolean. *)
Definition ToBoolean (v : value) : bool :=
  match v with
  | VUndefined | VNull => false
  | VBool b => b
  | VNum n => negb (n =? 0)
  | VStr s => negb (String.eqb s "")
  | VBuffer _ | VArr _ | VObj _ => true
  end.

Fixpoint lookup_field (name : string) (fields : list (string * value)) : value :=
  match fields with
  | [] => VUndefined
  | (k, v) :: rest => if String.eqb k name then v else lookup_field name rest
  end.

(** Canonical property name of an array index. *)
Definition index_key (i : nat) : string :=
  NilEmpty.string_of_uint (Nat.to_uint i).

(** [v[i]] for a number [i]: reading a property of [undefined] or [null]
    throws a TypeError, a missing element reads as [undefined]. *)
Definition get_index (v : value) (i : nat) : result value :=
  match v with
  | VUndefined | VNull => Throw TypeError
  | VArr items => Ok (nth i items VUndefined)
  | VBuffer bytes =>
      Ok (match nth_error bytes i with
          | Some b => VNum (Z.of_N (Byte.to_N b))
          | None => VUndefined
          end)
  | VStr s =>
      Ok (match String.get i s with
          | Some c => VStr (String c EmptyString)
          | None => VUndefined
          end)
  | VObj fields => Ok (lookup_field (index_key i) fields)
  | VBool _ | VNum _ => Ok VUndefined
  end.

(** [v.name] for one of the field names of the game record; none of them is
    a built-in property of a string, an array or a buffer. *)
Definition get_field (v : value) (name : string) : result value :=
  match v with
  | VUndefined | VNull => Throw TypeError
  | VObj fields => Ok (lookup_field name fields)
  | _ => Ok VUndefined
  end.

(** [v.map(i => i === 'F' ? ' ' : i)]: an array is mapped; a buffer, whose
    elements are numbers and never [=== 'F'], comes back unchanged; anything
    else has no callable [map]. *)
Definition map_board (v : value) : result value :=
  match v with
  | VArr items =>
      Ok (VArr (map (fun i => if strict_eq_str i "F" then VStr " " else i) items))
  | VBuffer bytes => Ok (VBuffer bytes)
  | _ => Throw TypeError
  end.

(** A JavaScript number as far as the liveness test needs it: an integer, or
    [None] for NaN. *)
Definition jsnum : Type := option Z.

Definition js_sub (a b : jsnum) : jsnum :=
  match a, b with
  | Some x, Some y => Some (x - y)
  | _, _ => None
  end.

(** [a < b]; any comparison with NaN is false. *)
Definition js_lt (a b : jsnum) : bool :=
  match a, b with
  | Some x, Some y => x <? y
  | _, _ => false
  end.

(** ** The runtime and the libraries *)

(** A collaborator returns ([inr]) or throws an error of its own, known here
    by its message ([inl]). *)
Definition foreign {A : Type} (r : string + A) : result A :=
  match r with
  | inr a => Ok a
  | inl msg => Throw (Foreign msg)
  end.

Class Runtime : Type := {
  (** instances of web3's [PublicKey] *)
  PublicKey : Type;
  (** [new PublicKey(v)], which throws on an input it cannot take *)
  newPublicKey : value -> string + PublicKey;
  (** [cbor.decode(bytes)], which throws on bytes it cannot read *)
  cbor_decode : list byte -> string + value;
  (** ToNumber of a string, a buffer, an array or an object *)
  coerce_number : value -> jsnum
}.

(** ToNumber. *)
Definition ToNumber {R : Runtime} (v : value) : jsnum :=
  match v with
  | VUndefined => None
  | VNull => Some 0
  | VBool b => Some (if b then 1 else 0)
  | VNum n => Some n
  | _ => coerce_number v
  end.

(** ** The decoder *)

Record AccountInfo : Type := { userdata : list byte }.

Definition le32 (b0 b1 b2 b3 : byte) : Z :=
  Z.of_N (Byte.to_N b0)
  + 256 * Z.of_N (Byte.to_N b1)
  + 65536 * Z.of_N (Byte.to_N b2)
  + 16777216 * Z.of_N (Byte.to_N b3).

(** [buf.readUInt32LE(offset)]: out of range when fewer than four bytes are
    left. *)
Definition readUInt32LE (buf : list byte) (offset : nat) : result Z :=
  match skipn offset buf with
  | b0 :: b1 :: b2 :: b3 :: _ => Ok (le32 b0 b1 b2 b3)
  | _ => Throw RangeError
  end.

(** [buf.slice(start)] *)
Definition slice (buf : list byte) (start : nat) : list byte := skipn start buf.

(** The type [TicTacToeGameState].  [gameState] is the string the record
    carries; the decoder keeps it only when it is one of the six it knows. *)
Record TicTacToeGameState {R : Runtime} : Type := {
  gameState : value;
  inProgress : bool;
  myTurn : bool;
  draw : bool;
  winner : bool;
  board : value;
  playerX : option PublicKey;
  playerO : option PublicKey;
  keep_alive : value
}.

Section Decoder.
Context {R : Runtime}.
Local Open Scope result_scope.

Definition set_inProgress (b : bool) (st : TicTacToeGameState) : TicTacToeGameState :=
  {| gameState := gameState st; inProgress := b; myTurn := myTurn st;
     draw := draw st; winner := winner st; board := board st;
     playerX := playerX st; playerO := playerO st; keep_alive := keep_alive st |}.

Definition set_myTurn (b : bool) (st : TicTacToeGameState) : TicTacToeGameState :=
  {| gameState := gameState st; inProgress := inProgress st; myTurn := b;
     draw := draw st; winner := winner st; board := board st;
     playerX := playerX st; playerO := playerO st; keep_alive := keep_alive st |}.

Definition set_draw (b : bool) (st : TicTacToeGameState) : TicTacToeGameState :=
  {| gameState := gameState st; inProgress := inProgress st; myTurn := myTurn st;
     draw := b; winner := winner st; board := board st;
     playerX := playerX st; playerO := playerO st; keep_alive := keep_alive st |}.

Definition set_winner (b : bool) (st : TicTacToeGameState) : TicTacToeGameState :=
  {| gameState := gameState st; inProgress := inProgress st; myTurn := myTurn st;
     draw := draw st; winner := b; board := board st;
     playerX := playerX st; playerO := playerO st; keep_alive := keep_alive st |}.

(** The [switch] of [_getGameState] (lines 267-282). *)
Definition classify (state : TicTacToeGameState) : result TicTacToeGameState :=
  let gs := gameState state in
  if strict_eq_str gs "Waiting" then Ok state
  else if strict_eq_str gs "XMove" || strict_eq_str gs "OMove"
       then Ok (set_inProgress true state)
  else if strict_eq_str gs "Draw" then Ok (set_draw true state)
  else if strict_eq_str gs "XWon" || strict_eq_str gs "OWon" then Ok state
  else Throw UnhandledGameState.

(** Lines 240-251 of [_getGameState]: the length check, the CBOR decoding
    of everything after the prefix, the tag check; the result is
    [tttAccount[1]]. *)
Definition decodeGame (accountInfo : AccountInfo) : result value :=
  let userdata := userdata accountInfo in
  length <- readUInt32LE userdata 0 ;;
  if length + 4 >=? Z.of_nat (List.length userdata) then Throw InvalidGameStateLength
  else
    tttAccount <- foreign (cbor_decode (slice userdata 4)) ;;
    tag <- get_index tttAccount 0 ;;
    if negb (strict_eq_str tag "Game") then Throw InvalidGameStateType
    else get_index tttAccount 1.

(** Lines 252-265 of [_getGameState]: the two keys and the [state] object
    with every flag false. *)
Definition initialState (game : value) : result TicTacToeGameState :=
  player_x <- get_field game "player_x" ;;
  playerX <- foreign (newPublicKey player_x) ;;
  player_o <- get_field game "player_o" ;;
  playerO <- (if ToBoolean player_o
              then (player_o' <- get_field game "player_o" ;;
                    k <- foreign (newPublicKey player_o') ;;
                    Ok (Some k))
              else Ok None) ;;
  state <- get_field game "state" ;;
  board0 <- get_field game "board" ;;
  board <- map_board board0 ;;
  keep_alive <- get_field game "keep_alive" ;;
  Ok {| gameState := state; inProgress := false; myTurn := false;
        draw := false; winner := false; board := board;
        playerX := Some playerX; playerO := playerO;
        keep_alive := keep_alive |}.

(** [static _getGameState(accountInfo)] (lines 237-285). *)
Definition _getGameState (accountInfo : AccountInfo) : result TicTacToeGameState :=
  game <- decodeGame accountInfo ;;
  state <- initialState game ;;
  classify state.

End Decoder.

(** ** The session object *)

(** The mutable fields of a [TicTacToe] instance.  [connection], [programId],
    [gamePublicKey] and [playerAccount] are assigned once by the constructor
    and only passed on to the collaborators; the emitter [_ee] lives in the
    event-emitter library and is seen through the calls made on it. *)
Record TicTacToe {R : Runtime} : Type := {
  abandoned : bool;
  isX : bool;
  state : TicTacToeGameState;
  _changeSubscriptionId : option nat
}.

(** The commands sent to the on-chain program ([cbor.encode] of these). *)
Inductive Command : Type :=
| InitGame
| Join (timestamp : Z)
| KeepAlive (timestamp : Z)
| Move (x y : Z).

(** Calls into the collaborators, in the order they are made. *)
Inductive Call : Type :=
| newProgramAccount
| getAccountInfo
| onAccountChange (id : nat)              (* the call returned [id] *)
| removeAccountChangeListener (id : nat)
| setTimeout (ms : Z)
| sendAndConfirmTransaction (cmd : Command)
| console_error
| ee_emit_change
| ee_on_change (fn : nat)
| ee_off_change (fn : nat).

Section Session.
Context {R : Runtime}.

(** A method: the outcome, [this] afterwards, the calls made. *)
Definition Method (A : Type) : Type :=
  TicTacToe -> result A * TicTacToe * list Call.

Definition ret {A : Type} (a : A) : Method A := fun this => (Ok a, this, []).

Definition throw {A : Type} (e : Error) : Method A := fun this => (Throw e, this, []).

Definition bind {A B : Type} (m : Method A) (k : A -> Method B) : Method B :=
  fun this =>
    match m this with
    | (Ok a, this1, calls1) =>
        match k a this1 with
        | (r, this2, calls2) => (r, this2, calls1 ++ calls2)
        end
    | (Throw e, this1, calls1) => (Throw e, this1, calls1)
    end.

Definition lift {A : Type} (r : result A) : Method A := fun this => (r, this, []).

Definition get_this : Method TicTacToe := fun this => (Ok this, this, []).

Definition call (c : Call) : Method unit := fun this => (Ok tt, this, [c]).

(** [try { m } catch (err) { handler }] *)
Definition try_catch (m : Method unit) (handler : Method unit) : Method unit :=
  fun this =>
    match m this with
    | (Ok a, this1, calls1) => (Ok a, this1, calls1)
    | (Throw _, this1, calls1) =>
        match handler this1 with
        | (r, this2, calls2) => (r, this2, calls1 ++ calls2)
        end
    end.

Definition assign_abandoned (b : bool) : Method unit :=
  fun this =>
    (Ok tt,
     {| abandoned := b; isX := isX this; state := state this;
        _changeSubscriptionId := _changeSubscriptionId this |}, []).

Definition assign_state (st : TicTacToeGameState) : Method unit :=
  fun this =>
    (Ok tt,
     {| abandoned := abandoned this; isX := isX this; state := st;
        _changeSubscriptionId := _changeSubscriptionId this |}, []).

Definition assign__changeSubscriptionId (id : option nat) : Method unit :=
  fun this =>
    (Ok tt,
     {| abandoned := abandoned this; isX := isX this; state := state this;
        _changeSubscriptionId := id |}, []).

End Session.

Declare Scope method_scope.
Delimit Scope method_scope with method.
Notation "x <- m ;; k" := (bind m (fun x => k))
  (at level 61, m at next level, right associativity) : method_scope.
Notation "m ;; k" := (bind m (fun _ => k))
  (at level 61, right associativity) : method_scope.

Section Methods.
Context {R : Runtime}.
Local Open Scope method_scope.

(** [constructor] (lines 54-87). *)
Definition new_TicTacToe (isX : bool) : TicTacToe :=
  {| abandoned := false;
     isX := isX;
     state := {| gameState := VStr "Waiting"; inProgress := false;
                 myTurn := false; draw := false; winner := false;
                 board := VArr []; playerX := None; playerO := None;
                 keep_alive := VArr [VNum 0; VNum 0] |};
     _changeSubscriptionId := None |}.

(** [scheduleNextKeepAlive()] (lines 92-124): subscribe if no subscription is
    held, then arm the timer.  [id] is the identifier the connection returns
    should it be asked for a subscription. *)
Definition scheduleNextKeepAlive (id : nat) : Method unit :=
  this <- get_this ;;
  match _changeSubscriptionId this with
  | None =>
      call (onAccountChange id) ;;
      assign__changeSubscriptionId (Some id)
  | Some _ => ret tt
  end ;;
  call (setTimeout 1000).

(** [keepAlive(when)] up to its [await]: the transaction is handed to the
    transaction layer. *)
Definition keepAlive_send (when : option Z) (now : Z) : Method unit :=
  let cmd := KeepAlive (match when with
                        | None => now
                        | Some t => t
                        end) in
  call (sendAndConfirmTransaction cmd).

(** [async keepAlive(when)] (lines 180-193); [outcome] is how the awaited
    transaction settles. *)
Definition keepAlive (when : option Z) (now : Z) (outcome : result unit) : Method unit :=
  keepAlive_send when now ;;
  lift outcome.

(** [async abandon()] (lines 198-201). *)
Definition abandon (now : Z) (outcome : result unit) : Method unit :=
  assign_abandoned true ;;
  keepAlive (Some 0) now outcome.

(** [async move(x, y)] (lines 207-221). *)
Definition move (x y : Z) (outcome : result unit) : Method unit :=
  call (sendAndConfirmTransaction (Move x y)) ;;
  lift outcome.

(** [array.includes(v)] for an array of string literals. *)
Definition includes (array : list string) (v : value) : bool :=
  existsb (strict_eq_str v) array.

(** How the timer callback leaves the event loop. *)
Inductive Suspension : Type :=
| Returned              (* the callback is over; nothing is pending *)
| AwaitingKeepAlive.    (* suspended at [await this.keepAlive()] *)

(** The callback given to [setTimeout] (lines 100-121), up to its [await]. *)
Definition keepAliveTimeout (now : Z) : Method Suspension :=
  this <- get_this ;;
  if abandoned this then
    match _changeSubscriptionId this with
    | Some id =>
        assign__changeSubscriptionId None ;;
        call (removeAccountChangeListener id)
    | None => ret tt
    end ;;
    ret Returned
  else if includes ["XWon"; "OWin"; "Draw"] (gameState (state this)) then
    ret Returned
  else
    keepAlive_send None now ;;
    ret AwaitingKeepAlive.

(** The rest of the callback (lines 115-120), run when the awaited keep-alive
    has settled with [outcome]. *)
Definition keepAliveTimeout_resume (outcome : result unit) (id : nat) : Method unit :=
  try_catch (lift outcome) (call console_error) ;;
  scheduleNextKeepAlive id.

(** [isPeerAlive()] (lines 287-291); [now] is [Date.now()]. *)
Definition isPeerAlive (now : Z) : Method bool :=
  this <- get_this ;;
  peerKeepAlive <- lift (get_index (keep_alive (state this))
                                   (if isX this then 1%nat else 0%nat)) ;;
  ret (js_lt (js_sub (Some now) (ToNumber peerKeepAlive)) (Some 10000)).

(** The [switch] of [_onAccountChange] (lines 304-323): the flags that depend
    on which player this is. *)
Definition deriveFlags : Method unit :=
  this <- get_this ;;
  let gs := gameState (state this) in
  if strict_eq_str gs "Waiting" then ret tt
  else if strict_eq_str gs "XMove" then
    assign_state (set_myTurn (isX this) (state this))
  else if strict_eq_str gs "OMove" then
    assign_state (set_myTurn (negb (isX this)) (state this))
  else if strict_eq_str gs "Draw" then ret tt
  else if strict_eq_str gs "XWon" then
    assign_state (set_winner (isX this) (state this))
  else if strict_eq_str gs "OWon" then
    assign_state (set_winner (negb (isX this)) (state this))
  else throw UnhandledGameState.

(** The liveness adjustment of [_onAccountChange] (lines 325-328). *)
Definition checkPeer (now : Z) : Method unit :=
  this <- get_this ;;
  if inProgress (state this) then
    alive <- isPeerAlive now ;;
    if negb alive then
      this' <- get_this ;;
      assign_state (set_inProgress false (state this')) ;;
      assign_abandoned true
    else ret tt
  else ret tt.

(** [_onAccountChange(accountInfo)] (lines 298-330). *)
Definition _onAccountChange (accountInfo : AccountInfo) (now : Z) : Method unit :=
  st <- lift (_getGameState accountInfo) ;;
  assign_state st ;;
  deriveFlags ;;
  checkPeer now ;;
  call ee_emit_change.

(** [onChange(fn)] and [removeChangeListener(fn)] (lines 335-344). *)
Definition onChange (fn : nat) : Method unit := call (ee_on_change fn).

Definition removeChangeListener (fn : nat) : Method unit := call (ee_off_change fn).

(** [static async getGameState(connection, gamePublicKey)] (lines 226-232);
    [fetched] is how the awaited [getAccountInfo] settles. *)
Definition getGameState (fetched : result AccountInfo) : result TicTacToeGameState :=
  rbind fetched _getGameState.

End Methods.

(** ** The session on the event loop *)

(** One session as the cooperative event loop sees it: the object, the
    timeouts armed and not yet fired, the timer callbacks suspended at their
    [await], and every call made to a collaborator so far. *)
Record World {R : Runtime} : Type := {
  session : TicTacToe;
  timers : nat;
  suspended : nat;
  trace : list Call
}.

(** What the event loop can run next.  The arguments are what the
    environment decides: the clock, how a transaction settles, the snapshot
    pushed by the connection, the identifier of a new subscription. *)
Inductive Event {R : Runtime} : Type :=
| TimerFires (now : Z)
| KeepAliveSettles (outcome : result unit) (id : nat)
| AccountChanges (accountInfo : AccountInfo) (now : Z)
| CallsAbandon (now : Z) (outcome : result unit)
| CallsKeepAlive (when : option Z) (now : Z) (outcome : result unit)
| CallsMove (x y : Z) (outcome : result unit)
| CallsOnChange (fn : nat)
| CallsRemoveChangeListener (fn : nat).

Section EventLoop.
Context {R : Runtime}.
Local Open Scope method_scope.

Definition is_setTimeout (c : Call) : bool :=
  match c with
  | setTimeout _ => true
  | _ => false
  end.

Definition is_onAccountChange (c : Call) : bool :=
  match c with
  | onAccountChange _ => true
  | _ => false
  end.

Definition is_removeAccountChangeListener (c : Call) : bool :=
  match c with
  | removeAccountChangeListener _ => true
  | _ => false
  end.

Definition is_console_error (c : Call) : bool :=
  match c with
  | console_error => true
  | _ => false
  end.

Definition count (p : Call -> bool) (calls : list Call) : nat :=
  List.length (filter p calls).

(** Subscriptions taken and given back in a sequence of calls. *)
Definition acquisitions (calls : list Call) : nat := count is_onAccountChange calls.

Definition releases (calls : list Call) : nat := count is_removeAccountChangeListener calls.

(** Run a method on the session: its calls go to the trace, each
    [setTimeout] among them arms a timer. *)
Definition perform {A : Type} (m : Method A) (w : World) : result A * World :=
  match m (session w) with
  | (r, this, calls) =>
      (r, {| session := this;
             timers := timers w + count is_setTimeout calls;
             suspended := suspended w;
             trace := trace w ++ calls |})
  end.

Definition step (e : Event) (w : World) : World :=
  match e with
  | TimerFires now =>
      match timers w with
      | O => w
      | S n =>
          let fired := {| session := session w; timers := n;
                          suspended := suspended w; trace := trace w |} in
          match perform (keepAliveTimeout now) fired with
          | (Ok AwaitingKeepAlive, w') =>
              {| session := session w'; timers := timers w';
                 suspended := S (suspended w'); trace := trace w' |}
          | (_, w') => w'
          end
      end
  | KeepAliveSettles outcome id =>
      match suspended w with
      | O => w
      | S n =>
          let resumed := {| session := session w; timers := timers w;
                            suspended := n; trace := trace w |} in
          snd (perform (keepAliveTimeout_resume outcome id) resumed)
      end
  | AccountChanges accountInfo now => snd (perform (_onAccountChange accountInfo now) w)
  | CallsAbandon now outcome => snd (perform (abandon now outcome) w)
  | CallsKeepAlive when now outcome => snd (perform (keepAlive when now outcome) w)
  | CallsMove x y outcome => snd (perform (move x y outcome) w)
  | CallsOnChange fn => snd (perform (onChange fn) w)
  | CallsRemoveChangeListener fn => snd (perform (removeChangeListener fn) w)
  end.

Fixpoint run (events : list Event) (w : World) : World :=
  match events with
  | [] => w
  | e :: rest => run rest (step e w)
  end.

(** The loop is over: no timeout is armed and no callback is suspended. *)
Definition loop_over (w : World) : bool :=
  Nat.eqb (timers w) 0 && Nat.eqb (suspended w) 0.

(** [static async create(...)] (lines 129-149); [allocated] and [sent] are
    how the two awaited calls settle. *)
Definition create (allocated sent : result unit) (id : nat) : result World :=
  match allocated with
  | Throw e => Throw e
  | Ok _ =>
      match sent with
      | Throw e => Throw e
      | Ok _ =>
          Ok (snd (perform (scheduleNextKeepAlive id)
                     {| session := new_TicTacToe true; timers := 0; suspended := 0;
                        trace := [newProgramAccount;
                                  sendAndConfirmTransaction InitGame] |}))
      end
  end.

(** [static async join(...)] (lines 154-175); [now] is the clock when the
    command is built, [now'] when the fetched snapshot is handled. *)
Definition join (now : Z) (sent : result unit) (fetched : result AccountInfo)
    (now' : Z) (id : nat) : result World :=
  let body :=
    call (sendAndConfirmTransaction (Join now)) ;;
    lift sent ;;
    call getAccountInfo ;;
    accountInfo <- lift fetched ;;
    _onAccountChange accountInfo now' ;;
    scheduleNextKeepAlive id in
  match perform body {| session := new_TicTacToe false; timers := 0;
                        suspended := 0; trace := [] |} with
  | (Ok _, w) => Ok w
  | (Throw e, _) => Throw e
  end.

End EventLoop.

(** ** A runtime to compute with *)

(** A stand-in for the libraries: a public key is the value it was built
    from, and the decoder reads a one-byte code for each of a few payloads
    (real CBOR is not needed to run the client's own logic). *)
Definition sample_game (phase : string) (keep_alive_x keep_alive_o : Z) : value :=
  VArr [VStr "Game";
        VObj [("state", VStr phase);
              ("board", VArr [VStr "X"; VStr "F"; VStr "F";
                              VStr "F"; VStr "O"; VStr "F";
                              VStr "F"; VStr "F"; VStr "F"]);
              ("player_x", VBuffer [x01]);
              ("player_o", VBuffer [x02]);
              ("keep_alive", VArr [VNum keep_alive_x; VNum keep_alive_o])]].

Definition sample_decode (payload : list byte) : string + value :=
  match payload with
  | x00 :: _ => inr (sample_game "Waiting" 1000 1000)
  | x01 :: _ => inr (sample_game "XMove" 1000 1000)
  | x02 :: _ => inr (sample_game "OMove" 1000 1000)
  | x03 :: _ => inr (sample_game "Draw" 1000 1000)
  | x04 :: _ => inr (sample_game "XWon" 1000 1000)
  | x05 :: _ => inr (sample_game "OWon" 1000 1000)
  | x06 :: _ => inr (sample_game "Paused" 1000 1000)
  | x07 :: _ => inr (VArr [VStr "Dashboard"; VObj []])
  | x08 :: _ => inr (sample_game "XMove" 1000 3000)
  | _ => inl "Insufficient data"
  end.

#[export] Instance sample_runtime : Runtime := {
  PublicKey := value;
  newPublicKey := fun v => inr v;
  cbor_decode := sample_decode;
  coerce_number := fun _ => None
}.

(** A 16-byte account whose prefix announces [length] (below 256) and whose
    payload starts with [code]. *)
Definition sample_account (length code : byte) : AccountInfo :=
  {| userdata := [length; x00; x00; x00; code; x00; x00; x00;
                  x00; x00; x00; x00; x00; x00; x00; x00] |}.

(** A session holding subscription 7 after the snapshot [code] was handled
    at time 5000 (both players were last heard of at time 1000). *)
Definition sample_session (isX abandoned : bool) (code : byte) : TicTacToe :=
  match _onAccountChange (sample_account x08 code) 5000
          {| abandoned := abandoned; isX := isX;
             state := state (new_TicTacToe isX);
             _changeSubscriptionId := Some 7%nat |} with
  | (_, this, _) => this
  end.

(** The world [create] leaves for player X, with subscription 7. *)
Definition sample_world : World :=
  match create (Ok tt) (Ok tt) 7 with
  | Ok w => w
  | Throw _ => {| session := new_TicTacToe true; timers := 0; suspended := 0;
                  trace := [] |}
  end.

(** The runtime [R] with another CBOR decoder. *)
Definition with_decoder (R : Runtime) (decoder : list byte -> string + value) : Runtime :=
  {| PublicKey := @PublicKey R;
     newPublicKey := @newPublicKey R;
     cbor_decode := decoder;
     coerce_number := @coerce_number R |}.

(** The six phases [_getGameState] accepts. *)
Definition known_phase (gs : value) : bool :=
  existsb (strict_eq_str gs) ["Waiting"; "XMove"; "OMove"; "Draw"; "XWon"; "OWon"].

(** ** The board component

    The second part of the source (lines 348-414): the React components
    [Square] and [Board].  An element is the record of the props it is
    created with; a click handler is known by the call it makes. *)

(** The [style] object of a square. *)
Record Style : Type := { width : string; height : string }.

(** [<Button style=... disabled=... onClick=...>{children}</Button>] *)
Record ButtonElement (H : Type) : Type := {
  btn_style : Style;
  btn_disabled : value;
  btn_onClick : H;
  btn_children : value
}.

(** The props of [Square]. *)
Record SquareProps (H : Type) : Type := {
  sq_disabled : value;
  sq_value : value;
  sq_bsSize : value;
  sq_onClick : H
}.

(** [function Square(props)] (lines 354-367). *)
Definition Square {H : Type} (props : SquareProps H) : ButtonElement H :=
  let style := if strict_eq_str (sq_bsSize props) "large"
               then {| width := "70px"; height := "70px" |}
               else {| width := "35px"; height := "35px" |} in
  {| btn_style := style;
     btn_disabled := sq_disabled props;
     btn_onClick := sq_onClick props;
     btn_children := if strict_eq_str (sq_value props) " " then VStr "-"
                     else sq_value props |}.

(** The props of [Board]; [onClick] is the caller's function of a square
    index. *)
Record BoardProps (F : Type) : Type := {
  squares : value;
  disabled : value;
  bsSize : value;
  onClick : F
}.

(** The arrow function [() => this.props.onClick(i)]: invoked, it calls
    [callee] with [argument]. *)
Record Closure (F : Type) : Type := { callee : F; argument : nat }.

(** [renderSquare(i)] (lines 376-385). *)
Definition renderSquare {F : Type} (props : BoardProps F) (i : nat)
    : result (ButtonElement (Closure F)) :=
  rbind (get_index (squares props) i) (fun v =>
  Ok (Square {| sq_disabled := disabled props;
                sq_value := v;
                sq_bsSize := bsSize props;
                sq_onClick := {| callee := onClick props; argument := i |} |})).

(** [render()] (lines 387-407): three rows of three squares, created in the
    order 0 to 8. *)
Definition render {F : Type} (props : BoardProps F)
    : result (list (list (ButtonElement (Closure F)))) :=
  rbind (renderSquare props 0) (fun s0 =>
  rbind (renderSquare props 1) (fun s1 =>
  rbind (renderSquare props 2) (fun s2 =>
  rbind (renderSquare props 3) (fun s3 =>
  rbind (renderSquare props 4) (fun s4 =>
  rbind (renderSquare props 5) (fun s5 =>
  rbind (renderSquare props 6) (fun s6 =>
  rbind (renderSquare props 7) (fun s7 =>
  rbind (renderSquare props 8) (fun s8 =>
  Ok [[s0; s1; s2]; [s3; s4; s5]; [s6; s7; s8]]))))))))).

(** ** Payloads at the edges *)

(** A Game record with the given fields. *)
Definition edge_game (fields : list (string * value)) : value :=
  VArr [VStr "Game"; VObj fields].

(** A second stand-in decoder: records with a field missing or empty, a
    payload that is [null], a tag without a record.  Its [PublicKey] refuses
    [undefined]. *)
Definition edge_decode (payload : list byte) : string + value :=
  match payload with
  | x00 :: _ => inr (edge_game [("state", VStr "XMove"); ("board", VArr []);
                                ("player_x", VBuffer [x01]);
                                ("player_o", VBuffer [x02])])
  | x01 :: _ => inr (edge_game [("state", VStr "XMove"); ("board", VArr []);
                                ("player_x", VBuffer [x01]);
                                ("player_o", VBuffer [x02]);
                                ("keep_alive", VArr [])])
  | x02 :: _ => inr VNull
  | x03 :: _ => inr (VArr [VStr "Game"])
  | x04 :: _ => inr (edge_game [("state", VStr "Waiting");
                                ("player_x", VBuffer [x01]);
                                ("keep_alive", VArr [VNum 0; VNum 0])])
  | x05 :: _ => inr (edge_game [("state", VStr "Waiting");
                                ("board", VArr [VStr "F"; VStr "F"; VStr "F";
                                                VStr "F"; VStr "F"; VStr "F";
                                                VStr "F"; VStr "F"; VStr "F"]);
                                ("player_x", VBuffer [x01]);
                                ("player_o", VNull);
                                ("keep_alive", VArr [VNum 5000; VNum 0])])
  | x06 :: _ => inr (edge_game [("state", VStr "XMove");
                                ("board", VArr [VStr "X"; VStr "F"; VStr " "]);
                                ("player_x", VBuffer [x01]);
                                ("player_o", VBuffer [x02]);
                                ("keep_alive", VArr [VNum 0; VNum 9000])])
  | x07 :: _ => inr (edge_game [("state", VStr "XMove"); ("board", VArr []);
                                ("player_o", VBuffer [x02]);
                                ("keep_alive", VArr [VNum 0; VNum 0])])
  | _ => inl "Insufficient data"
  end.

Definition edge_runtime : Runtime :=
  {| PublicKey := value;
     newPublicKey := fun v => match v with
                              | VUndefined => inl "Invalid public key input"
                              | _ => inr v
                              end;
     cbor_decode := edge_decode;
     coerce_number := fun _ => None |}.



(** ** Predicates on methods and worlds *)

Section Predicates.
Context {R : Runtime}.

(** A method that leaves the subscription, the timers and [isX] alone, and
    never resets [abandoned]. *)
Definition quiet {A : Type} (m : Method A) : Prop :=
  forall this : TicTacToe,
    match m this with
    | (_, this', calls) =>
        _changeSubscriptionId this' = _changeSubscriptionId this
        /\ isX this' = isX this
        /\ (abandoned this = true -> abandoned this' = true)
        /\ acquisitions calls = 0%nat
        /\ releases calls = 0%nat
        /\ count is_setTimeout calls = 0%nat
    end.

(** A method that, run without a subscription, ends (when it does not
    throw) with subscription [id] taken by one call and one timer armed. *)
Definition starts_loop {A : Type} (id : nat) (m : Method A) : Prop :=
  forall this : TicTacToe,
    _changeSubscriptionId this = None ->
    match m this with
    | (Ok _, this', calls) =>
        _changeSubscriptionId this' = Some id
        /\ acquisitions calls = 1%nat
        /\ releases calls = 0%nat
        /\ count is_setTimeout calls = 1%nat
    | (Throw _, _, _) => True
    end.

(** What holds of a session started by [create] or [join], whatever runs
    next: one loop at most, one subscription taken, and it is given back
    only once the loop is over. *)
Definition one_subscription (w : World) : Prop :=
  (timers w + suspended w <= 1)%nat
  /\ acquisitions (trace w) = 1%nat
  /\ match _changeSubscriptionId (session w) with
     | Some _ => releases (trace w) = 0%nat
     | None => releases (trace w) = 1%nat /\ timers w = 0%nat /\ suspended w = 0%nat
     end.

End Predicates.

(** * Properties *)

(** ** The decoder *)

Section DecoderFacts.
Context {R : Runtime}.

Lemma foreign_not_length (A : Type) (r : string + A) :
  foreign r <> Throw InvalidGameStateLength.
Proof. destruct r; discriminate. Qed.

Lemma get_index_not_length (v : value) (i : nat) :
  get_index v i <> Throw InvalidGameStateLength.
Proof. destruct v; discriminate. Qed.

Lemma get_field_not_length (v : value) (name : string) :
  get_field v name <> Throw InvalidGameStateLength.
Proof. destruct v; discriminate. Qed.

Lemma map_board_not_length (v : value) :
  map_board v <> Throw InvalidGameStateLength.
Proof. destruct v; discriminate. Qed.

Lemma rbind_not_length (A B : Type) (r : result A) (k : A -> result B) :
  r <> Throw InvalidGameStateLength ->
  (forall a : A, k a <> Throw InvalidGameStateLength) ->
  rbind r k <> Throw InvalidGameStateLength.
Proof.
  intros Hr Hk. destruct r as [a|e]; cbn [rbind]; [apply Hk|].
  intros H. injection H as ->. now apply Hr.
Qed.

Create HintDb not_length.

#[local] Hint Resolve foreign_not_length get_index_not_length
  get_field_not_length map_board_not_length : not_length.

(** Goals [r <> Throw InvalidGameStateLength], by the shape of [r]. *)
Ltac not_length :=
  repeat first
    [ apply rbind_not_length; [|intro]
    | match goal with
      | |- (if ?b then _ else _) <> _ => destruct b
      end
    | solve [auto with not_length]
    | discriminate ].

Lemma classify_not_length (st : TicTacToeGameState) :
  classify st <> Throw InvalidGameStateLength.
Proof. unfold classify. not_length. Qed.

Lemma initialState_not_length (game : value) :
  initialState game <> Throw InvalidGameStateLength.
Proof. unfold initialState. not_length. Qed.

Lemma geb_ge (a b : Z) : (a >=? b) = true <-> a >= b.
Proof. rewrite Z.geb_leb, Z.leb_le. lia. Qed.

Lemma decodeGame_length (accountInfo : AccountInfo) (length : Z) :
  readUInt32LE (userdata accountInfo) 0 = Ok length ->
  decodeGame accountInfo = Throw InvalidGameStateLength <->
  length + 4 >= Z.of_nat (List.length (userdata accountInfo)).
Proof.
  intros Hlen. unfold decodeGame. rewrite Hlen. cbn [rbind].
  destruct (length + 4 >=? _) eqn:Hge.
  - apply geb_ge in Hge. split; [intros _; exact Hge|reflexivity].
  - assert (~ length + 4 >= Z.of_nat (List.length (userdata accountInfo))) as Hlt
      by (rewrite <- geb_ge, Hge; discriminate).
    split; [|tauto]. intros H. exfalso. revert H. not_length.
Qed.

Lemma getGameState_throws_length (accountInfo : AccountInfo) :
  _getGameState accountInfo = Throw InvalidGameStateLength <->
  decodeGame accountInfo = Throw InvalidGameStateLength.
Proof.
  unfold _getGameState. destruct (decodeGame accountInfo) as [game|e]; cbn [rbind];
    [|split; intros H; congruence].
  split; [|discriminate]. intros H. exfalso. revert H.
  apply rbind_not_length; [apply initialState_not_length|].
  apply classify_not_length.
Qed.

(** A buffer too short to hold the prefix is refused by [readUInt32LE]
    itself. *)
Lemma getGameState_short_buffer (accountInfo : AccountInfo) :
  (List.length (userdata accountInfo) < 4)%nat ->
  _getGameState accountInfo = Throw RangeError.
Proof.
  destruct accountInfo as [buf]. cbn [userdata]. intros H.
  unfold _getGameState, decodeGame, readUInt32LE. cbn [userdata skipn].
  destruct buf as [|b0 [|b1 [|b2 [|b3 rest]]]]; cbn in H |- *; try reflexivity; lia.
Qed.

(** C2, as the code has it: when the buffer holds the four bytes of the
    prefix, [_getGameState] throws "Invalid game state length" exactly when
    [length + 4 >= userdata.length] (so also when the two are equal), and then
    the outcome is the same whatever the CBOR decoder is: it is not
    consulted. *)
Theorem getGameState_length_check (accountInfo : AccountInfo) (length : Z) :
  readUInt32LE (userdata accountInfo) 0 = Ok length ->
  (_getGameState accountInfo = Throw InvalidGameStateLength <->
   length + 4 >= Z.of_nat (List.length (userdata accountInfo)))
  /\ (length + 4 >= Z.of_nat (List.length (userdata accountInfo)) ->
      forall decoder : list byte -> string + value,
        @_getGameState (with_decoder R decoder) accountInfo
        = Throw InvalidGameStateLength).
Proof.
  intros Hlen. split.
  - rewrite getGameState_throws_length. now apply decodeGame_length.
  - intros Hge decoder.
    unfold _getGameState, decodeGame. rewrite Hlen. cbn [rbind].
    apply geb_ge in Hge. now rewrite Hge.
Qed.

Lemma strict_eq_str_true (v : value) (s : string) :
  strict_eq_str v s = true <-> v = VStr s.
Proof.
  destruct v; cbn [strict_eq_str]; try (split; [discriminate|discriminate]).
  rewrite String.eqb_eq. split; congruence.
Qed.

(** [initialState] returns an object whose four flags are false and whose
    [gameState] is the [state] field of the record. *)
Lemma initialState_flags (game : value) (st : TicTacToeGameState) :
  initialState game = Ok st ->
  inProgress st = false /\ myTurn st = false /\ draw st = false /\ winner st = false
  /\ get_field game "state" = Ok (gameState st)
  /\ get_field game "keep_alive" = Ok (keep_alive st).
Proof.
  unfold initialState.
  repeat match goal with
         | |- rbind ?r _ = _ -> _ => destruct r; cbn [rbind]; try discriminate
         end.
  intros H. injection H as <-. cbn. repeat split.
Qed.

(** What the [switch] of [_getGameState] does to an object whose flags are
    still false. *)
Lemma classify_Ok (st0 st : TicTacToeGameState) :
  classify st0 = Ok st ->
  known_phase (gameState st0) = true
  /\ st = (if strict_eq_str (gameState st0) "XMove" || strict_eq_str (gameState st0) "OMove"
           then set_inProgress true st0
           else if strict_eq_str (gameState st0) "Draw" then set_draw true st0
           else st0).
Proof.
  unfold classify, known_phase. cbn [existsb].
  destruct (strict_eq_str (gameState st0) "Waiting") eqn:EW.
  - apply strict_eq_str_true in EW. rewrite EW. cbn. intros H. now injection H as <-.
  - destruct (strict_eq_str (gameState st0) "XMove"); cbn [orb].
    { intros H. now injection H as <-. }
    destruct (strict_eq_str (gameState st0) "OMove"); cbn [orb].
    { intros H. now injection H as <-. }
    destruct (strict_eq_str (gameState st0) "Draw"); cbn [orb].
    { intros H. now injection H as <-. }
    destruct (strict_eq_str (gameState st0) "XWon"); cbn [orb].
    { intros H. now injection H as <-. }
    destruct (strict_eq_str (gameState st0) "OWon"); cbn [orb].
    { intros H. now injection H as <-. }
    discriminate.
Qed.


(** The flags of a decoded object, phase by phase. *)
Lemma getGameState_Ok (accountInfo : AccountInfo) (st : TicTacToeGameState) :
  _getGameState accountInfo = Ok st ->
  known_phase (gameState st) = true
  /\ inProgress st
     = (strict_eq_str (gameState st) "XMove" || strict_eq_str (gameState st) "OMove")
  /\ myTurn st = false
  /\ draw st = strict_eq_str (gameState st) "Draw"
  /\ winner st = false.
Proof.
  unfold _getGameState.
  destruct (decodeGame accountInfo) as [game|e]; cbn [rbind]; [|discriminate].
  destruct (initialState game) as [st0|e] eqn:E0; cbn [rbind]; [|discriminate].
  apply initialState_flags in E0. destruct E0 as (Hp & Ht & Hd & Hw & _).
  intros H. apply classify_Ok in H. destruct H as [Hk ->].
  destruct (strict_eq_str (gameState st0) "XMove") eqn:EX; cbn [orb].
  { apply strict_eq_str_true in EX. cbn. rewrite EX in *. cbn. auto. }
  destruct (strict_eq_str (gameState st0) "OMove") eqn:EO; cbn [orb].
  { apply strict_eq_str_true in EO. cbn. rewrite EO in *. cbn. auto. }
  destruct (strict_eq_str (gameState st0) "Draw") eqn:ED.
  { apply strict_eq_str_true in ED. cbn. rewrite ED in *. cbn. auto. }
  rewrite EX, EO, ED. auto.
Qed.



(** C10: the object returned by the static [getGameState] has [myTurn] and
    [winner] false in every phase, XWon and OWon included; [draw] and
    [inProgress] are the ones the fetch path sets. *)
Theorem getGameState_no_turn_no_winner
    (accountInfo : AccountInfo) (st : TicTacToeGameState) :
  getGameState (Ok accountInfo) = Ok st ->
  myTurn st = false
  /\ winner st = false
  /\ draw st = strict_eq_str (gameState st) "Draw"
  /\ inProgress st
     = (strict_eq_str (gameState st) "XMove" || strict_eq_str (gameState st) "OMove").
Proof.
  unfold getGameState. cbn [rbind]. intros H.
  apply getGameState_Ok in H. tauto.
Qed.

End DecoderFacts.

(** ** The commands and the liveness test *)

Section SessionFacts.
Context {R : Runtime}.
Local Open Scope method_scope.

(** C3, as the code has it: [abandon] sets [abandoned], hands one KeepAlive
    carrying 0 to the transaction layer and settles the way that transaction
    does: a rejection is the rejection of [abandon] itself and nothing is
    logged.  [abandoned] is true afterwards in either case. *)
Theorem abandon_sets_flag_and_propagates
    (this : TicTacToe) (now : Z) (outcome : result unit) :
  abandon now outcome this
  = (outcome,
     {| abandoned := true; isX := isX this; state := state this;
        _changeSubscriptionId := _changeSubscriptionId this |},
     [sendAndConfirmTransaction (KeepAlive 0)]).
Proof.
  unfold abandon, keepAlive, keepAlive_send, bind, assign_abandoned, call, lift.
  cbn. now destruct outcome as [[]|e].
Qed.

(** [keepAlive()] without an argument carries the clock. *)
Lemma keepAlive_default (this : TicTacToe) (now : Z) (outcome : result unit) :
  keepAlive None now outcome this
  = (outcome, this, [sendAndConfirmTransaction (KeepAlive now)]).
Proof.
  unfold keepAlive, keepAlive_send, bind, call, lift. cbn.
  now destruct outcome as [[]|e].
Qed.

(** C6: [isPeerAlive] reads the other player's entry of [keep_alive] (index
    1 for X, index 0 for O) and answers [now - marker < 10000], strictly: a
    marker 9999 ms old is alive, one 10000 ms old is not. *)
Theorem isPeerAlive_threshold
    (this : TicTacToe) (now keepAliveX keepAliveO : Z) :
  keep_alive (state this) = VArr [VNum keepAliveX; VNum keepAliveO] ->
  isPeerAlive now this
  = (Ok (now - (if isX this then keepAliveO else keepAliveX) <? 10000), this, [])
  /\ ((now - (if isX this then keepAliveO else keepAliveX) <? 10000) = true
      <-> now - (if isX this then keepAliveO else keepAliveX) < 10000)
  /\ ((if isX this then keepAliveO else keepAliveX) = now - 9999 ->
      isPeerAlive now this = (Ok true, this, []))
  /\ ((if isX this then keepAliveO else keepAliveX) = now - 10000 ->
      isPeerAlive now this = (Ok false, this, [])).
Proof.
  intros Hka.
  assert (isPeerAlive now this
          = (Ok (now - (if isX this then keepAliveO else keepAliveX) <? 10000),
             this, [])) as Heq.
  { unfold isPeerAlive, bind, get_this, lift, ret. rewrite Hka.
    destruct (isX this); reflexivity. }
  split; [exact Heq|]. split; [apply Z.ltb_lt|]. split; intros Hm; rewrite Heq, Hm.
  - replace (now - (now - 9999)) with 9999 by lia. reflexivity.
  - replace (now - (now - 10000)) with 10000 by lia. reflexivity.
Qed.

(** ** The change handler *)

Lemma bind_assoc (A B C : Type) (m : Method A) (k : A -> Method B) (h : B -> Method C)
    (this : TicTacToe) :
  bind (bind m k) h this = (a <- m ;; b <- k a ;; h b) this.
Proof.
  unfold bind. destruct (m this) as [[[a|e] this1] calls1]; [|reflexivity].
  destruct (k a this1) as [[[b|e] this2] calls2]; [|reflexivity].
  destruct (h b this2) as [[r this3] calls3]. now rewrite app_assoc.
Qed.

(** The handler is the decoder, then the flags of this player, then the
    liveness adjustment, then the event. *)
Lemma onAccountChange_stages
    (accountInfo : AccountInfo) (now : Z) (this : TicTacToe) (st0 : TicTacToeGameState) :
  _getGameState accountInfo = Ok st0 ->
  _onAccountChange accountInfo now this
  = ((assign_state st0 ;; deriveFlags) ;; checkPeer now ;; call ee_emit_change) this.
Proof.
  intros H. rewrite bind_assoc.
  unfold _onAccountChange. unfold bind at 1, lift. rewrite H.
  now destruct (bind _ _ this) as [[r this2] calls2].
Qed.

Lemma onAccountChange_after_derive
    (accountInfo : AccountInfo) (now : Z) (this derived : TicTacToe)
    (st0 : TicTacToeGameState) :
  _getGameState accountInfo = Ok st0 ->
  (assign_state st0 ;; deriveFlags) this = (Ok tt, derived, []) ->
  _onAccountChange accountInfo now this
  = (checkPeer now ;; call ee_emit_change) derived.
Proof.
  intros H Hd. erewrite onAccountChange_stages by eassumption.
  unfold bind at 1. rewrite Hd.
  now destruct ((checkPeer now ;; call ee_emit_change) derived) as [[r this2] calls2].
Qed.

(** C9: when decoding fails, whatever the failure, the handler throws it
    with the object untouched and no call made: the state and [abandoned] are
    as before and 'change' is not emitted.  If the handler changed the state
    or the flag, or called anything, decoding had succeeded. *)
Theorem onAccountChange_decode_failure
    (accountInfo : AccountInfo) (now : Z) (this : TicTacToe) :
  (forall e : Error,
      _getGameState accountInfo = Throw e ->
      _onAccountChange accountInfo now this = (Throw e, this, []))
  /\ (forall (r : result unit) (this' : TicTacToe) (calls : list Call),
        _onAccountChange accountInfo now this = (r, this', calls) ->
        state this' <> state this \/ abandoned this' <> abandoned this \/ calls <> [] ->
        exists st : TicTacToeGameState, _getGameState accountInfo = Ok st).
Proof.
  split.
  - intros e H. unfold _onAccountChange, bind, lift. now rewrite H.
  - intros r this' calls Hrun Hchanged.
    destruct (_getGameState accountInfo) as [st|e] eqn:Hdec; [now exists st|].
    exfalso. unfold _onAccountChange, bind, lift in Hrun. rewrite Hdec in Hrun.
    injection Hrun as <- <- <-. destruct Hchanged as [H|[H|H]]; now apply H.
Qed.

(** The flags of this player, on a freshly decoded object. *)
Lemma deriveFlags_decoded
    (accountInfo : AccountInfo) (this : TicTacToe) (st0 : TicTacToeGameState) :
  _getGameState accountInfo = Ok st0 ->
  (assign_state st0 ;; deriveFlags) this
  = (Ok tt,
     {| abandoned := abandoned this; isX := isX this;
        state :=
          {| gameState := gameState st0;
             inProgress := strict_eq_str (gameState st0) "XMove"
                           || strict_eq_str (gameState st0) "OMove";
             myTurn := strict_eq_str (gameState st0) "XMove" && isX this
                       || strict_eq_str (gameState st0) "OMove" && negb (isX this);
             draw := strict_eq_str (gameState st0) "Draw";
             winner := strict_eq_str (gameState st0) "XWon" && isX this
                       || strict_eq_str (gameState st0) "OWon" && negb (isX this);
             board := board st0; playerX := playerX st0; playerO := playerO st0;
             keep_alive := keep_alive st0 |};
        _changeSubscriptionId := _changeSubscriptionId this |},
     []).
Proof.
  intros H. apply getGameState_Ok in H.
  destruct H as (Hk & Hp & Ht & Hd & Hw).
  destruct st0 as [gs p t d w b px po ka]. cbn in *. subst p t d w.
  unfold bind, assign_state, deriveFlags, get_this, ret, throw. cbn.
  unfold known_phase in Hk. cbn [existsb] in Hk.
  destruct (strict_eq_str gs "Waiting") eqn:EW.
  { apply strict_eq_str_true in EW. subst gs. reflexivity. }
  destruct (strict_eq_str gs "XMove") eqn:EX.
  { apply strict_eq_str_true in EX. subst gs. cbn. now destruct (isX this). }
  destruct (strict_eq_str gs "OMove") eqn:EO.
  { apply strict_eq_str_true in EO. subst gs. cbn. now destruct (isX this). }
  destruct (strict_eq_str gs "Draw") eqn:ED.
  { apply strict_eq_str_true in ED. subst gs. reflexivity. }
  destruct (strict_eq_str gs "XWon") eqn:EXW.
  { apply strict_eq_str_true in EXW. subst gs. cbn. now destruct (isX this). }
  destruct (strict_eq_str gs "OWon") eqn:EOW.
  { apply strict_eq_str_true in EOW. subst gs. cbn. now destruct (isX this). }
  discriminate.
Qed.

(** C5: for a decoded record, the view once the flags of this player are
    derived follows the phase table, and [inProgress] is true exactly in
    XMove and OMove; the handler then goes on from this view with the
    liveness adjustment and the event. *)
Theorem derived_view_phase_table
    (accountInfo : AccountInfo) (now : Z) (this : TicTacToe) (st0 : TicTacToeGameState) :
  _getGameState accountInfo = Ok st0 ->
  exists derived : TicTacToe,
    (assign_state st0 ;; deriveFlags) this = (Ok tt, derived, [])
    /\ _onAccountChange accountInfo now this
       = (checkPeer now ;; call ee_emit_change) derived
    /\ isX derived = isX this
    /\ gameState (state derived) = gameState st0
    /\ (gameState st0 = VStr "Waiting" ->
        inProgress (state derived) = false /\ myTurn (state derived) = false
        /\ draw (state derived) = false /\ winner (state derived) = false)
    /\ (gameState st0 = VStr "XMove" -> myTurn (state derived) = isX this)
    /\ (gameState st0 = VStr "OMove" -> myTurn (state derived) = negb (isX this))
    /\ (gameState st0 = VStr "Draw" -> draw (state derived) = true)
    /\ (gameState st0 = VStr "XWon" -> winner (state derived) = isX this)
    /\ (gameState st0 = VStr "OWon" -> winner (state derived) = negb (isX this))
    /\ (inProgress (state derived) = true <->
        gameState st0 = VStr "XMove" \/ gameState st0 = VStr "OMove")
    /\ myTurn (state derived)
       = (strict_eq_str (gameState st0) "XMove" && isX this
          || strict_eq_str (gameState st0) "OMove" && negb (isX this))
    /\ draw (state derived) = strict_eq_str (gameState st0) "Draw"
    /\ winner (state derived)
       = (strict_eq_str (gameState st0) "XWon" && isX this
          || strict_eq_str (gameState st0) "OWon" && negb (isX this)).
Proof.
  intros H. eexists. split; [eapply deriveFlags_decoded; eassumption|].
  split.
  { eapply onAccountChange_after_derive; [eassumption|].
    eapply deriveFlags_decoded; eassumption. }
  cbn. split; [reflexivity|]. split; [reflexivity|].
  assert (inProgress_iff :
            strict_eq_str (gameState st0) "XMove" || strict_eq_str (gameState st0) "OMove"
            = true
            <-> gameState st0 = VStr "XMove" \/ gameState st0 = VStr "OMove")
    by (rewrite orb_true_iff, !strict_eq_str_true; tauto).
  split.
  { intros ->. cbn. now destruct (isX this). }
  repeat (split; [intros ->; cbn; now destruct (isX this)|]).
  split; [exact inProgress_iff|]. repeat split.
Qed.

(** ** Methods that leave the loop and the subscription alone *)

Lemma count_app (p : Call -> bool) (l1 l2 : list Call) :
  count p (l1 ++ l2) = (count p l1 + count p l2)%nat.
Proof. unfold count. now rewrite filter_app, length_app. Qed.

Lemma quiet_ret (A : Type) (a : A) : quiet (ret a).
Proof. intros this. cbn. repeat split; auto. Qed.

Lemma quiet_throw (A : Type) (e : Error) : quiet (@throw R A e).
Proof. intros this. cbn. repeat split; auto. Qed.

Lemma quiet_lift (A : Type) (r : result A) : quiet (lift r).
Proof. intros this. cbn. repeat split; auto. Qed.

Lemma quiet_get_this : quiet get_this.
Proof. intros this. cbn. repeat split; auto. Qed.

Lemma quiet_assign_state (st : TicTacToeGameState) : quiet (assign_state st).
Proof. intros this. cbn. repeat split; auto. Qed.

Lemma quiet_assign_abandoned_true : quiet (assign_abandoned true).
Proof. intros this. cbn. repeat split; auto. Qed.

Lemma quiet_call (c : Call) :
  is_onAccountChange c = false ->
  is_removeAccountChangeListener c = false ->
  is_setTimeout c = false ->
  quiet (call c).
Proof.
  intros H1 H2 H3 this. unfold call, acquisitions, releases, count.
  cbn. rewrite H1, H2, H3. repeat split; auto.
Qed.

Lemma quiet_bind (A B : Type) (m : Method A) (k : A -> Method B) :
  quiet m -> (forall a : A, quiet (k a)) -> quiet (bind m k).
Proof.
  intros Hm Hk this. unfold bind. specialize (Hm this).
  destruct (m this) as [[[a|e] this1] calls1]; [|exact Hm].
  specialize (Hk a this1). destruct (k a this1) as [[r this2] calls2].
  unfold acquisitions, releases in *. rewrite !count_app.
  destruct Hm as (Hs & Hx & Hab & Ha & Hr & Ht).
  destruct Hk as (Hs' & Hx' & Hab' & Ha' & Hr' & Ht').
  repeat split; try congruence; try lia; auto.
Qed.

Create HintDb quiet.

#[local] Hint Resolve quiet_ret quiet_throw quiet_lift quiet_get_this
  quiet_assign_state quiet_assign_abandoned_true : quiet.

Ltac quiet_step :=
  match goal with
  | |- quiet (bind _ _) => apply quiet_bind; [|intro]
  | |- quiet (call _) => apply quiet_call; reflexivity
  | |- quiet (if ?b then _ else _) => destruct b
  | |- quiet _ => solve [auto with quiet]
  end.

Lemma quiet_keepAlive (when : option Z) (now : Z) (outcome : result unit) :
  quiet (keepAlive when now outcome).
Proof. unfold keepAlive, keepAlive_send. repeat quiet_step. Qed.

Lemma quiet_abandon (now : Z) (outcome : result unit) : quiet (abandon now outcome).
Proof. unfold abandon. quiet_step; [quiet_step|apply quiet_keepAlive]. Qed.

Lemma quiet_move (x y : Z) (outcome : result unit) : quiet (move x y outcome).
Proof. unfold move. repeat quiet_step. Qed.

Lemma quiet_onChange (fn : nat) : quiet (onChange fn).
Proof. unfold onChange. repeat quiet_step. Qed.

Lemma quiet_removeChangeListener (fn : nat) : quiet (removeChangeListener fn).
Proof. unfold removeChangeListener. repeat quiet_step. Qed.

Lemma quiet_isPeerAlive (now : Z) : quiet (isPeerAlive now).
Proof. unfold isPeerAlive. repeat quiet_step. Qed.

Lemma quiet_deriveFlags : quiet deriveFlags.
Proof. unfold deriveFlags. repeat quiet_step. Qed.

Lemma quiet_checkPeer (now : Z) : quiet (checkPeer now).
Proof.
  unfold checkPeer. repeat quiet_step; try apply quiet_isPeerAlive.
Qed.

Lemma quiet_onAccountChange (accountInfo : AccountInfo) (now : Z) :
  quiet (_onAccountChange accountInfo now).
Proof.
  unfold _onAccountChange. repeat quiet_step.
  - apply quiet_deriveFlags.
  - apply quiet_checkPeer.
Qed.

(** ** The session on the event loop *)

Lemma perform_spec (A : Type) (m : Method A) (w : World) :
  perform m w
  = (fst (fst (m (session w))),
     {| session := snd (fst (m (session w)));
        timers := timers w + count is_setTimeout (snd (m (session w)));
        suspended := suspended w;
        trace := trace w ++ snd (m (session w)) |}).
Proof. unfold perform. now destruct (m (session w)) as [[r this] calls]. Qed.

(** Running a quiet method changes neither the loop nor the subscription. *)
Lemma perform_quiet (A : Type) (m : Method A) (w : World) :
  quiet m ->
  _changeSubscriptionId (session (snd (perform m w))) = _changeSubscriptionId (session w)
  /\ timers (snd (perform m w)) = timers w
  /\ suspended (snd (perform m w)) = suspended w
  /\ acquisitions (trace (snd (perform m w))) = acquisitions (trace w)
  /\ releases (trace (snd (perform m w))) = releases (trace w)
  /\ (abandoned (session w) = true -> abandoned (session (snd (perform m w))) = true).
Proof.
  intros Hq. rewrite perform_spec. cbn [snd session timers suspended trace].
  specialize (Hq (session w)).
  destruct (m (session w)) as [[r this] calls]. cbn [fst snd].
  destruct Hq as (Hs & Hx & Hab & Ha & Hr & Ht).
  unfold acquisitions, releases in *. rewrite !count_app.
  repeat split; try congruence; try lia; auto.
Qed.

(** Every public method other than the timer callback is quiet. *)
Lemma step_quiet (e : Event) (w : World) :
  (forall now, e <> TimerFires now) ->
  (forall outcome id, e <> KeepAliveSettles outcome id) ->
  exists m : Method unit, quiet m /\ step e w = snd (perform m w).
Proof.
  intros Ht Hk. destruct e as [now|outcome id|info now|now outcome|when now outcome
                               |x y outcome|fn|fn]; cbn [step].
  - now elim (Ht now).
  - now elim (Hk outcome id).
  - eexists. split; [apply quiet_onAccountChange|reflexivity].
  - eexists. split; [apply quiet_abandon|reflexivity].
  - eexists. split; [apply quiet_keepAlive|reflexivity].
  - eexists. split; [apply quiet_move|reflexivity].
  - eexists. split; [apply quiet_onChange|reflexivity].
  - eexists. split; [apply quiet_removeChangeListener|reflexivity].
Qed.

(** The timer callback on an abandoned session: the subscription, when
    held, is given back, and the callback returns without arming anything. *)
Lemma keepAliveTimeout_abandoned (this : TicTacToe) (now : Z) :
  abandoned this = true ->
  keepAliveTimeout now this
  = (Ok Returned,
     {| abandoned := abandoned this; isX := isX this; state := state this;
        _changeSubscriptionId := None |},
     match _changeSubscriptionId this with
     | Some id => [removeAccountChangeListener id]
     | None => []
     end).
Proof.
  intros H. destruct this as [ab x st [id|]]; cbn in H; subst ab; reflexivity.
Qed.

(** The timer callback in XWon or Draw: it returns, and the subscription
    stays. *)
Lemma keepAliveTimeout_game_over (this : TicTacToe) (now : Z) :
  abandoned this = false ->
  gameState (state this) = VStr "XWon" \/ gameState (state this) = VStr "Draw" ->
  keepAliveTimeout now this = (Ok Returned, this, []).
Proof.
  intros H Hgs. unfold keepAliveTimeout, bind, get_this. rewrite H.
  now destruct Hgs as [-> | ->].
Qed.

(** The timer callback otherwise: what it does when it is neither abandoned
    nor in one of the three strings of its list. *)
Lemma keepAliveTimeout_cases (this : TicTacToe) (now : Z) :
  abandoned this = false ->
  keepAliveTimeout now this
  = if includes ["XWon"; "OWin"; "Draw"] (gameState (state this))
    then (Ok Returned, this, [])
    else (Ok AwaitingKeepAlive, this, [sendAndConfirmTransaction (KeepAlive now)]).
Proof.
  intros H. unfold keepAliveTimeout, bind, get_this. rewrite H.
  now destruct (includes _ _).
Qed.

(** The rest of the callback: an error is logged, and the timer is armed
    again either way. *)
Lemma keepAliveTimeout_resume_held
    (this : TicTacToe) (outcome : result unit) (id held : nat) :
  _changeSubscriptionId this = Some held ->
  keepAliveTimeout_resume outcome id this
  = (Ok tt, this,
     match outcome with
     | Ok _ => [setTimeout 1000]
     | Throw _ => [console_error; setTimeout 1000]
     end).
Proof.
  intros H. unfold keepAliveTimeout_resume, scheduleNextKeepAlive, try_catch, bind,
    get_this, lift, call, ret.
  destruct outcome as [[]|e]; cbn; rewrite H; reflexivity.
Qed.

(** C1 where the code departs from it: in phase OWon the callback does not
    return; it sends a keep-alive and, once that has settled, arms the timer
    again (the list it tests holds 'OWin'). *)
Theorem keepAliveTimeout_OWon_goes_on
    (this : TicTacToe) (now : Z) (outcome : result unit) (id held : nat) :
  abandoned this = false ->
  gameState (state this) = VStr "OWon" ->
  _changeSubscriptionId this = Some held ->
  keepAliveTimeout now this
  = (Ok AwaitingKeepAlive, this, [sendAndConfirmTransaction (KeepAlive now)])
  /\ exists calls : list Call,
       keepAliveTimeout_resume outcome id this = (Ok tt, this, calls)
       /\ count is_setTimeout calls = 1%nat.
Proof.
  intros Hab Hgs Hheld. split.
  - rewrite keepAliveTimeout_cases by assumption. now rewrite Hgs.
  - eexists. split; [now apply keepAliveTimeout_resume_held with (held := held)|].
    now destruct outcome as [[]|e].
Qed.

Lemma checkPeer_inactive (this : TicTacToe) (now : Z) :
  inProgress (state this) = true ->
  isPeerAlive now this = (Ok false, this, []) ->
  checkPeer now this
  = (Ok tt,
     {| abandoned := true; isX := isX this;
        state := set_inProgress false (state this);
        _changeSubscriptionId := _changeSubscriptionId this |},
     []).
Proof.
  intros Hp Hdead. unfold checkPeer, bind, get_this. rewrite Hp, Hdead.
  reflexivity.
Qed.

Lemma step_keeps_abandoned (e : Event) (w : World) :
  abandoned (session w) = true -> abandoned (session (step e w)) = true.
Proof.
  intros Hab.
  destruct e as [now|outcome id|info now|now outcome|when now outcome
                 |x y outcome|fn|fn];
    try (edestruct (@step_quiet) as (m & Hq & ->);
         [discriminate|discriminate|now apply perform_quiet]).
  - cbn [step]. destruct (timers w) as [|n]; [assumption|].
    rewrite perform_spec. cbn [session].
    rewrite keepAliveTimeout_abandoned by assumption. cbn. assumption.
  - cbn [step]. destruct (suspended w) as [|n]; [assumption|].
    rewrite perform_spec. cbn [session snd].
    unfold keepAliveTimeout_resume, scheduleNextKeepAlive, try_catch, bind,
      get_this, lift, call, ret, assign__changeSubscriptionId.
    destruct outcome as [[]|err]; destruct (_changeSubscriptionId (session w));
      cbn; assumption.
Qed.

Lemma run_keeps_abandoned (events : list Event) (w : World) :
  abandoned (session w) = true -> abandoned (session (run events w)) = true.
Proof.
  revert w. induction events as [|e rest IH]; intros w Hab; cbn [run].
  - assumption.
  - apply IH. now apply step_keeps_abandoned.
Qed.

(** C4: when the view derived from an update has [inProgress] true and
    [isPeerAlive] answers false, the handler stores the view with
    [inProgress] false and sets [abandoned]; and nothing the event loop can
    run afterwards (updates, commands, the timer) makes [abandoned] false
    again. *)
Theorem peer_inactive_abandons_for_good :
  (forall (accountInfo : AccountInfo) (now : Z) (this derived : TicTacToe)
          (st0 : TicTacToeGameState),
      _getGameState accountInfo = Ok st0 ->
      (assign_state st0 ;; deriveFlags) this = (Ok tt, derived, []) ->
      inProgress (state derived) = true ->
      isPeerAlive now derived = (Ok false, derived, []) ->
      _onAccountChange accountInfo now this
      = (Ok tt,
         {| abandoned := true; isX := isX derived;
            state := set_inProgress false (state derived);
            _changeSubscriptionId := _changeSubscriptionId derived |},
         [ee_emit_change]))
  /\ (forall (events : list Event) (w : World),
        abandoned (session w) = true ->
        abandoned (session (run events w)) = true).
Proof.
  split.
  - intros accountInfo now this derived st0 Hdec Hder Hp Hdead.
    erewrite onAccountChange_after_derive by eassumption.
    unfold bind. now rewrite checkPeer_inactive.
  - exact run_keeps_abandoned.
Qed.

(** Once the loop is over it stays over: nothing the event loop can run
    arms a timer. *)
Lemma loop_over_step (e : Event) (w : World) :
  loop_over w = true -> loop_over (step e w) = true.
Proof.
  unfold loop_over. intros H. apply andb_true_iff in H. destruct H as [Ht Hs].
  apply Nat.eqb_eq in Ht, Hs.
  destruct e as [now|outcome id|info now|now outcome|when now outcome
                 |x y outcome|fn|fn];
    try (edestruct (@step_quiet) as (m & Hq & ->);
         [discriminate|discriminate|];
         destruct (perform_quiet w Hq) as (_ & -> & -> & _);
         now rewrite Ht, Hs).
  - cbn [step]. rewrite Ht. now rewrite Ht, Hs.
  - cbn [step]. rewrite Hs. now rewrite Ht, Hs.
Qed.

Lemma loop_over_forever (events : list Event) (w : World) :
  loop_over w = true -> loop_over (run events w) = true.
Proof.
  revert w. induction events as [|e rest IH]; intros w H; cbn [run];
    [assumption|]. apply IH. now apply loop_over_step.
Qed.

(** ** The subscription *)


Lemma starts_loop_schedule (id : nat) : starts_loop id (scheduleNextKeepAlive id).
Proof.
  intros this H. unfold scheduleNextKeepAlive, bind, get_this, call, ret,
    assign__changeSubscriptionId. rewrite H. cbn. repeat split.
Qed.

Lemma starts_loop_bind (A B : Type) (id : nat) (m : Method A) (k : A -> Method B) :
  quiet m -> (forall a : A, starts_loop id (k a)) -> starts_loop id (bind m k).
Proof.
  intros Hm Hk this Hnone. unfold bind. specialize (Hm this).
  destruct (m this) as [[[a|e] this1] calls1]; [|exact I].
  destruct Hm as (Hs & _ & _ & Ha & Hr & Ht).
  specialize (Hk a this1). rewrite Hs in Hk. specialize (Hk Hnone).
  destruct (k a this1) as [[[b|e] this2] calls2]; [|exact I].
  unfold acquisitions, releases in *. rewrite !count_app.
  destruct Hk as (Hs' & Ha' & Hr' & Ht'). repeat split; try assumption; lia.
Qed.

Lemma perform_starts_loop (A : Type) (id : nat) (m : Method A) (w w' : World) (a : A) :
  starts_loop id m ->
  _changeSubscriptionId (session w) = None ->
  timers w = 0%nat -> suspended w = 0%nat ->
  acquisitions (trace w) = 0%nat -> releases (trace w) = 0%nat ->
  perform m w = (Ok a, w') ->
  one_subscription w'.
Proof.
  intros Hm Hnone Ht Hs Ha Hr. rewrite perform_spec. specialize (Hm _ Hnone).
  destruct (m (session w)) as [[[a'|e] this] calls]; cbn [fst snd]; [|discriminate].
  intros H. injection H as _ <-. unfold one_subscription.
  cbn [session timers suspended trace].
  destruct Hm as (Hs' & Ha' & Hr' & Ht'). rewrite Hs'.
  unfold acquisitions, releases in *. rewrite !count_app. lia.
Qed.

Lemma create_one_subscription (allocated sent : result unit) (id : nat) (w : World) :
  create allocated sent id = Ok w -> one_subscription w.
Proof.
  unfold create. destruct allocated as [[]|e]; [|discriminate].
  destruct sent as [[]|e]; [|discriminate].
  intros H. injection H as <-. unfold one_subscription. cbn. lia.
Qed.

Lemma join_one_subscription
    (now : Z) (sent : result unit) (fetched : result AccountInfo) (now' : Z) (id : nat)
    (w : World) :
  join now sent fetched now' id = Ok w -> one_subscription w.
Proof.
  unfold join.
  destruct (perform _ _) as [[[]|e] w'] eqn:Hrun; [|discriminate].
  intros H. injection H as <-.
  eapply perform_starts_loop; [|..|exact Hrun]; try reflexivity.
  apply starts_loop_bind; [apply quiet_call; reflexivity|intros _].
  apply starts_loop_bind; [apply quiet_lift|intros _].
  apply starts_loop_bind; [apply quiet_call; reflexivity|intros _].
  apply starts_loop_bind; [apply quiet_lift|intros accountInfo].
  apply starts_loop_bind; [apply quiet_onAccountChange|intros _].
  apply starts_loop_schedule.
Qed.

Lemma step_one_subscription (e : Event) (w : World) :
  one_subscription w -> one_subscription (step e w).
Proof.
  intros (Hloop & Hacq & Hsub).
  destruct e as [now|outcome id|info now|now outcome|when now outcome
                 |x y outcome|fn|fn];
    try (edestruct (@step_quiet) as (m & Hq & ->);
         [discriminate|discriminate|];
         destruct (perform_quiet w Hq) as (Hs & Ht & Hsu & Ha & Hr & _);
         unfold one_subscription; now rewrite Hs, Ht, Hsu, Ha, Hr).
  - (* the timer fires *)
    cbn [step]. destruct (timers w) as [|n] eqn:Ht.
    { unfold one_subscription. now rewrite Ht. }
    destruct (_changeSubscriptionId (session w)) as [held|] eqn:Hheld; [|lia].
    rewrite perform_spec. cbn [session timers suspended trace].
    destruct (abandoned (session w)) eqn:Hab.
    + rewrite keepAliveTimeout_abandoned by assumption. rewrite Hheld.
      unfold one_subscription, acquisitions, releases in *. cbn [fst snd].
      cbn [session timers suspended trace _changeSubscriptionId].
      rewrite !count_app. cbn. lia.
    + rewrite keepAliveTimeout_cases by assumption.
      destruct (includes _ _); cbn [fst snd];
        unfold one_subscription, acquisitions, releases in *;
        cbn [session timers suspended trace]; rewrite Hheld, !count_app; cbn; lia.
  - (* the awaited keep-alive settles *)
    cbn [step]. destruct (suspended w) as [|n] eqn:Hs.
    { unfold one_subscription. now rewrite Hs. }
    destruct (_changeSubscriptionId (session w)) as [held|] eqn:Hheld; [|lia].
    rewrite perform_spec. cbn [session timers suspended trace snd].
    rewrite (keepAliveTimeout_resume_held _ outcome id Hheld).
    unfold one_subscription, acquisitions, releases in *. cbn [fst snd].
    cbn [session timers suspended trace]. rewrite Hheld, !count_app.
    destruct outcome as [[]|err]; cbn; lia.
Qed.

Lemma run_one_subscription (events : list Event) (w : World) :
  one_subscription w -> one_subscription (run events w).
Proof.
  revert w. induction events as [|e rest IH]; intros w H; cbn [run];
    [assumption|]. apply IH. now apply step_one_subscription.
Qed.




Lemma started_one_subscription (w0 : World) :
  (exists allocated sent id, create allocated sent id = Ok w0)
  \/ (exists now sent fetched now' id, join now sent fetched now' id = Ok w0) ->
  one_subscription w0.
Proof.
  intros [(allocated & sent & id & H)|(now & sent & fetched & now' & id & H)].
  - eapply create_one_subscription; eassumption.
  - eapply join_one_subscription; eassumption.
Qed.


End SessionFacts.

(** * Further properties of the code *)

(** ** The decoder at its edges *)

Section DecoderEdges.
Context {R : Runtime}.

Lemma le32_nonneg (b0 b1 b2 b3 : byte) : 0 <= le32 b0 b1 b2 b3.
Proof.
  unfold le32.
  pose proof (N2Z.is_nonneg (Byte.to_N b0)).
  pose proof (N2Z.is_nonneg (Byte.to_N b1)).
  pose proof (N2Z.is_nonneg (Byte.to_N b2)).
  pose proof (N2Z.is_nonneg (Byte.to_N b3)).
  lia.
Qed.

Lemma readUInt32LE_nonneg (buf : list byte) (v : Z) :
  readUInt32LE buf 0 = Ok v -> 0 <= v.
Proof.
  unfold readUInt32LE. cbn [skipn].
  destruct buf as [|b0 [|b1 [|b2 [|b3 rest]]]]; try discriminate.
  intros H. injection H as <-. apply le32_nonneg.
Qed.

(** No account of four bytes or fewer decodes: under four bytes the prefix
    cannot be read (RangeError); at exactly four bytes the length check
    refuses whatever the prefix says; a decoded account has at least five
    bytes. *)
Theorem getGameState_needs_five_bytes (accountInfo : AccountInfo) :
  ((List.length (userdata accountInfo) < 4)%nat ->
   _getGameState accountInfo = Throw RangeError)
  /\ (List.length (userdata accountInfo) = 4%nat ->
      _getGameState accountInfo = Throw InvalidGameStateLength)
  /\ (forall st : TicTacToeGameState,
        _getGameState accountInfo = Ok st ->
        (5 <= List.length (userdata accountInfo))%nat).
Proof.
  split; [apply getGameState_short_buffer|]. split.
  - intros H4. destruct accountInfo as [buf]. cbn [userdata] in *.
    destruct buf as [|b0 [|b1 [|b2 [|b3 [|b4 rest]]]]]; try discriminate.
    apply getGameState_throws_length.
    apply (@decodeGame_length _ _ (le32 b0 b1 b2 b3)); [reflexivity|].
    cbn. pose proof (le32_nonneg b0 b1 b2 b3). lia.
  - intros st Hok.
    destruct (readUInt32LE (userdata accountInfo) 0) as [len|e] eqn:Hlen.
    + pose proof (readUInt32LE_nonneg _ Hlen) as Hpos.
      destruct (Z_lt_ge_dec (len + 4) (Z.of_nat (List.length (userdata accountInfo))))
        as [Hlt|Hge]; [lia|].
      apply (decodeGame_length _ Hlen) in Hge.
      apply getGameState_throws_length in Hge. congruence.
    + unfold _getGameState, decodeGame in Hok. rewrite Hlen in Hok. discriminate.
Qed.

(** What [decodeGame] does once the length check has passed. *)
Lemma decodeGame_fits (accountInfo : AccountInfo) (length : Z) :
  readUInt32LE (userdata accountInfo) 0 = Ok length ->
  length + 4 < Z.of_nat (List.length (userdata accountInfo)) ->
  decodeGame accountInfo
  = rbind (foreign (cbor_decode (slice (userdata accountInfo) 4))) (fun tttAccount =>
    rbind (get_index tttAccount 0) (fun tag =>
    if negb (strict_eq_str tag "Game") then Throw InvalidGameStateType
    else get_index tttAccount 1)).
Proof.
  intros Hlen Hfit. unfold decodeGame. rewrite Hlen. cbn [rbind].
  destruct (length + 4 >=? _) eqn:Hge; [apply geb_ge in Hge; lia|reflexivity].
Qed.

(** The prefix is a guard and nothing more: everything after the fourth
    byte goes to the CBOR decoder, so two accounts with the same bytes after
    the prefix and prefixes that both pass the check decode alike. *)
Theorem getGameState_prefix_only_guards
    (b0 b1 b2 b3 c0 c1 c2 c3 : byte) (rest : list byte) :
  le32 b0 b1 b2 b3 + 4 < Z.of_nat (4 + List.length rest) ->
  le32 c0 c1 c2 c3 + 4 < Z.of_nat (4 + List.length rest) ->
  _getGameState {| userdata := b0 :: b1 :: b2 :: b3 :: rest |}
  = _getGameState {| userdata := c0 :: c1 :: c2 :: c3 :: rest |}
  /\ decodeGame {| userdata := b0 :: b1 :: b2 :: b3 :: rest |}
     = rbind (foreign (cbor_decode rest)) (fun tttAccount =>
       rbind (get_index tttAccount 0) (fun tag =>
       if negb (strict_eq_str tag "Game") then Throw InvalidGameStateType
       else get_index tttAccount 1)).
Proof.
  intros Hb Hc.
  assert (forall d0 d1 d2 d3,
             le32 d0 d1 d2 d3 + 4 < Z.of_nat (4 + List.length rest) ->
             decodeGame {| userdata := d0 :: d1 :: d2 :: d3 :: rest |}
             = rbind (foreign (cbor_decode rest)) (fun tttAccount =>
               rbind (get_index tttAccount 0) (fun tag =>
               if negb (strict_eq_str tag "Game") then Throw InvalidGameStateType
               else get_index tttAccount 1))) as Hdec.
  { intros d0 d1 d2 d3 Hd.
    now rewrite (@decodeGame_fits _ (le32 d0 d1 d2 d3)). }
  split; [|now apply Hdec].
  unfold _getGameState. now rewrite !Hdec.
Qed.

(** Errors on the way to the record, once the length check has passed: an
    error of the CBOR decoder is thrown on as it is; a payload that decodes to
    [null] or [undefined] has no element 0 to read (TypeError); a tag 'Game'
    without a record after it gives a TypeError when the record's first field
    is read. *)
Theorem getGameState_decode_errors (accountInfo : AccountInfo) (length : Z) :
  readUInt32LE (userdata accountInfo) 0 = Ok length ->
  length + 4 < Z.of_nat (List.length (userdata accountInfo)) ->
  (forall msg : string,
      cbor_decode (slice (userdata accountInfo) 4) = inl msg ->
      _getGameState accountInfo = Throw (Foreign msg))
  /\ (cbor_decode (slice (userdata accountInfo) 4) = inr VNull
      \/ cbor_decode (slice (userdata accountInfo) 4) = inr VUndefined ->
      _getGameState accountInfo = Throw TypeError)
  /\ (forall tttAccount : value,
        cbor_decode (slice (userdata accountInfo) 4) = inr tttAccount ->
        get_index tttAccount 0 = Ok (VStr "Game") ->
        get_index tttAccount 1 = Ok VUndefined \/ get_index tttAccount 1 = Ok VNull ->
        _getGameState accountInfo = Throw TypeError).
Proof.
  intros Hlen Hfit. unfold _getGameState.
  rewrite (decodeGame_fits _ Hlen Hfit). split; [|split].
  - intros msg H. now rewrite H.
  - intros [H|H]; now rewrite H.
  - intros tttAccount H Htag Hrec. rewrite H. cbn [foreign rbind].
    rewrite Htag. cbn. destruct Hrec as [-> | ->]; reflexivity.
Qed.

Lemma classify_fields (st0 st : TicTacToeGameState) :
  classify st0 = Ok st ->
  gameState st = gameState st0 /\ board st = board st0
  /\ playerX st = playerX st0 /\ playerO st = playerO st0
  /\ keep_alive st = keep_alive st0.
Proof.
  intros H. apply classify_Ok in H. destruct H as [_ ->].
  destruct (_ || _); [now cbn|]. destruct (strict_eq_str _ "Draw"); now cbn.
Qed.

(** Where each field of a decoded object comes from. *)
Lemma getGameState_inv (accountInfo : AccountInfo) (st : TicTacToeGameState) :
  _getGameState accountInfo = Ok st ->
  exists (game player_x player_o board0 : value) (keyX : PublicKey),
    decodeGame accountInfo = Ok game
    /\ get_field game "player_x" = Ok player_x
    /\ newPublicKey player_x = inr keyX
    /\ playerX st = Some keyX
    /\ get_field game "player_o" = Ok player_o
    /\ (if ToBoolean player_o
        then exists keyO : PublicKey,
            newPublicKey player_o = inr keyO /\ playerO st = Some keyO
        else playerO st = None)
    /\ get_field game "state" = Ok (gameState st)
    /\ get_field game "board" = Ok board0
    /\ map_board board0 = Ok (board st)
    /\ get_field game "keep_alive" = Ok (keep_alive st).
Proof.
  unfold _getGameState.
  destruct (decodeGame accountInfo) as [game|e]; cbn [rbind]; [|discriminate].
  destruct (initialState game) as [st0|e] eqn:E0; cbn [rbind]; [|discriminate].
  intros Hc. apply classify_fields in Hc.
  destruct Hc as (-> & -> & -> & -> & ->).
  revert E0. unfold initialState.
  destruct (get_field game "player_x") as [px|e] eqn:Epx; cbn [rbind]; [|discriminate].
  destruct (newPublicKey px) as [msg|kx] eqn:Ekx; cbn [foreign rbind]; [discriminate|].
  destruct (get_field game "player_o") as [po|e] eqn:Epo; cbn [rbind]; [|discriminate].
  destruct (ToBoolean po) eqn:Etruthy; cbn [rbind].
  - destruct (newPublicKey po) as [msg|ko] eqn:Eko; cbn [foreign rbind];
      [discriminate|].
    destruct (get_field game "state") as [gs|e] eqn:Egs; cbn [rbind]; [|discriminate].
    destruct (get_field game "board") as [b|e] eqn:Eb0; cbn [rbind]; [|discriminate].
    destruct (map_board b) as [b'|e] eqn:Eb; cbn [rbind]; [|discriminate].
    destruct (get_field game "keep_alive") as [ka|e] eqn:Eka; cbn [rbind];
      [|discriminate].
    intros Hst. injection Hst as Hst. subst st0. cbn.
    exists game, px, po, b, kx. rewrite Etruthy.
    repeat (split; [reflexivity || assumption|]).
    split; [now exists ko|]. repeat split; assumption.
  - destruct (get_field game "state") as [gs|e] eqn:Egs; cbn [rbind]; [|discriminate].
    destruct (get_field game "board") as [b|e] eqn:Eb0; cbn [rbind]; [|discriminate].
    destruct (map_board b) as [b'|e] eqn:Eb; cbn [rbind]; [|discriminate].
    destruct (get_field game "keep_alive") as [ka|e] eqn:Eka; cbn [rbind];
      [|discriminate].
    intros Hst. injection Hst as Hst. subst st0. cbn.
    exists game, px, po, b, kx. rewrite Etruthy.
    repeat (split; [reflexivity || assumption|]).
    repeat split; assumption.
Qed.

End DecoderEdges.

(** ** The fields of a decoded object *)

Section DecodedFields.
Context {R : Runtime}.

Lemma map_board_cells (cells : list value) :
  exists squares : list value,
    map_board (VArr cells) = Ok (VArr squares)
    /\ List.length squares = List.length cells
    /\ (forall i : nat,
          nth i squares VUndefined
          = if strict_eq_str (nth i cells VUndefined) "F" then VStr " "
            else nth i cells VUndefined)
    /\ Forall (fun v => strict_eq_str v "F" = false) squares.
Proof.
  eexists. split; [reflexivity|]. split; [apply length_map|]. split.
  - intros i.
    change VUndefined with
      ((fun v => if strict_eq_str v "F" then VStr " " else v) VUndefined) at 1.
    now rewrite map_nth.
  - induction cells as [|c cells IH]; cbn [map]; constructor; [|exact IH].
    destruct (strict_eq_str c "F") eqn:E; [reflexivity|exact E].
Qed.

(** The board of a decoded object has as many cells as the record's board;
    a cell 'F' of the record is the cell ' ' of the object, every other cell
    is kept; no cell of the object is 'F'. *)
Theorem getGameState_board
    (accountInfo : AccountInfo) (st : TicTacToeGameState) (game : value)
    (cells : list value) :
  _getGameState accountInfo = Ok st ->
  decodeGame accountInfo = Ok game ->
  get_field game "board" = Ok (VArr cells) ->
  exists squares : list value,
    board st = VArr squares
    /\ List.length squares = List.length cells
    /\ (forall i : nat,
          nth i squares VUndefined
          = if strict_eq_str (nth i cells VUndefined) "F" then VStr " "
            else nth i cells VUndefined)
    /\ Forall (fun v => strict_eq_str v "F" = false) squares.
Proof.
  intros Hok Hgame Hboard.
  destruct (getGameState_inv _ Hok)
    as (game' & px & po & b & kx & Hg & _ & _ & _ & _ & _ & _ & Hb & Hmap & _).
  assert (game' = game) as -> by congruence.
  assert (b = VArr cells) as -> by congruence.
  destruct (map_board_cells cells) as (squares & Hsq & Hlen & Hnth & HnoF).
  exists squares. split; [congruence|]. auto.
Qed.

(** A record whose [board] is not an array (a missing field, say) is never
    decoded: [game.board.map] cannot be called. *)
Theorem getGameState_board_required
    (accountInfo : AccountInfo) (game board0 : value) :
  decodeGame accountInfo = Ok game ->
  get_field game "board" = Ok board0 ->
  (forall cells : list value, board0 <> VArr cells) ->
  (forall bytes : list byte, board0 <> VBuffer bytes) ->
  forall st : TicTacToeGameState, _getGameState accountInfo <> Ok st.
Proof.
  intros Hgame Hboard Harr Hbuf st Hok.
  destruct (getGameState_inv _ Hok)
    as (game' & px & po & b & kx & Hg & _ & _ & _ & _ & _ & _ & Hb & Hmap & _).
  assert (game' = game) as -> by congruence.
  assert (b = board0) as -> by congruence.
  destruct board0; try discriminate.
  - now apply (Hbuf bytes).
  - now apply (Harr items).
Qed.

(** A decoded object always has a [playerX]; its [playerO] is [null]
    exactly when the record's [player_o] is falsy ([null], [undefined], an
    empty string, zero). *)
Theorem getGameState_players
    (accountInfo : AccountInfo) (st : TicTacToeGameState) (game player_o : value) :
  _getGameState accountInfo = Ok st ->
  decodeGame accountInfo = Ok game ->
  get_field game "player_o" = Ok player_o ->
  playerX st <> None
  /\ (playerO st = None <-> ToBoolean player_o = false).
Proof.
  intros Hok Hgame Hpo.
  destruct (getGameState_inv _ Hok)
    as (game' & px & po & b & kx & Hg & _ & _ & HX & Hpo' & HO & _).
  assert (game' = game) as -> by congruence.
  assert (po = player_o) as -> by congruence.
  split; [congruence|].
  destruct (ToBoolean player_o).
  - destruct HO as (ko & _ & ->). split; discriminate.
  - now split.
Qed.

End DecodedFields.

(** ** The change handler, case by case *)

Section HandlerFacts.
Context {R : Runtime}.
Local Open Scope method_scope.

Lemma isPeerAlive_eq (now : Z) (this : TicTacToe) :
  isPeerAlive now this
  = (rbind (get_index (keep_alive (state this)) (if isX this then 1%nat else 0%nat))
       (fun peerKeepAlive =>
          Ok (js_lt (js_sub (Some now) (ToNumber peerKeepAlive)) (Some 10000))),
     this, []).
Proof.
  unfold isPeerAlive, bind, get_this, lift, ret.
  now destruct (get_index _ _).
Qed.

Lemma checkPeer_eq (now : Z) (this : TicTacToe) :
  checkPeer now this
  = if inProgress (state this)
    then match fst (fst (isPeerAlive now this)) with
         | Ok true => (Ok tt, this, [])
         | Ok false =>
             (Ok tt,
              {| abandoned := true; isX := isX this;
                 state := set_inProgress false (state this);
                 _changeSubscriptionId := _changeSubscriptionId this |}, [])
         | Throw e => (Throw e, this, [])
         end
    else (Ok tt, this, []).
Proof.
  unfold checkPeer, bind, get_this.
  destruct (inProgress (state this)); [|reflexivity].
  rewrite isPeerAlive_eq. cbn [fst].
  now destruct (rbind _ _) as [[]|e].
Qed.

(** The view the handler derives from a decoded object, and what it keeps
    of the session. *)
Lemma derived_exists
    (accountInfo : AccountInfo) (this : TicTacToe) (st0 : TicTacToeGameState) :
  _getGameState accountInfo = Ok st0 ->
  exists derived : TicTacToe,
    (assign_state st0 ;; deriveFlags) this = (Ok tt, derived, [])
    /\ abandoned derived = abandoned this
    /\ isX derived = isX this
    /\ _changeSubscriptionId derived = _changeSubscriptionId this
    /\ inProgress (state derived) = inProgress st0
    /\ keep_alive (state derived) = keep_alive st0
    /\ gameState (state derived) = gameState st0
    /\ (forall now : Z,
          _onAccountChange accountInfo now this
          = (checkPeer now ;; call ee_emit_change) derived).
Proof.
  intros H. eexists. split; [eapply deriveFlags_decoded; eassumption|].
  cbn. repeat (split; [reflexivity|]). split.
  { apply getGameState_Ok in H. symmetry. apply H. }
  repeat (split; [reflexivity|]).
  intros now. eapply onAccountChange_after_derive; [eassumption|].
  eapply deriveFlags_decoded; eassumption.
Qed.

(** The outcome of the handler, from the view it derived. *)
Lemma onAccountChange_eq
    (accountInfo : AccountInfo) (now : Z) (this derived : TicTacToe)
    (st0 : TicTacToeGameState) :
  _getGameState accountInfo = Ok st0 ->
  (assign_state st0 ;; deriveFlags) this = (Ok tt, derived, []) ->
  _onAccountChange accountInfo now this
  = if inProgress (state derived)
    then match fst (fst (isPeerAlive now derived)) with
         | Ok true => (Ok tt, derived, [ee_emit_change])
         | Ok false =>
             (Ok tt,
              {| abandoned := true; isX := isX derived;
                 state := set_inProgress false (state derived);
                 _changeSubscriptionId := _changeSubscriptionId derived |},
              [ee_emit_change])
         | Throw e => (Throw e, derived, [])
         end
    else (Ok tt, derived, [ee_emit_change]).
Proof.
  intros Hdec Hder. erewrite onAccountChange_after_derive by eassumption.
  unfold bind. rewrite checkPeer_eq.
  destruct (inProgress (state derived)); [|reflexivity].
  now destruct (fst (fst (isPeerAlive now derived))) as [[]|e].
Qed.

(** An update that finds the game in progress but the record without
    [keep_alive] ([undefined] or [null]) fails with a TypeError after the new
    state has been stored: the state is replaced, [abandoned] is as before and
    'change' is not emitted. *)
Theorem onAccountChange_keep_alive_missing
    (accountInfo : AccountInfo) (now : Z) (this : TicTacToe)
    (st0 : TicTacToeGameState) :
  _getGameState accountInfo = Ok st0 ->
  inProgress st0 = true ->
  keep_alive st0 = VUndefined \/ keep_alive st0 = VNull ->
  exists derived : TicTacToe,
    (assign_state st0 ;; deriveFlags) this = (Ok tt, derived, [])
    /\ _onAccountChange accountInfo now this = (Throw TypeError, derived, [])
    /\ gameState (state derived) = gameState st0
    /\ abandoned derived = abandoned this.
Proof.
  intros Hdec Hp Hka.
  destruct (@derived_exists accountInfo this st0 Hdec)
    as (derived & Hder & Hab & _ & _ & Hp' & Hka' & Hgs & _).
  exists derived. split; [exact Hder|]. split; [|now split].
  rewrite (@onAccountChange_eq accountInfo now this derived st0 Hdec Hder), Hp', Hp, isPeerAlive_eq, Hka'.
  destruct Hka as [-> | ->]; reflexivity.
Qed.

(** An update sets [abandoned] only in the one case of lines 325-328: a
    session that goes from not abandoned to abandoned in the handler had a
    decoded object in progress and a peer [isPeerAlive] called inactive. *)
Theorem onAccountChange_abandons_only_inactive_peer
    (accountInfo : AccountInfo) (now : Z) (this final : TicTacToe)
    (r : result unit) (calls : list Call) :
  _onAccountChange accountInfo now this = (r, final, calls) ->
  abandoned this = false ->
  abandoned final = true ->
  exists (st0 : TicTacToeGameState) (derived : TicTacToe),
    _getGameState accountInfo = Ok st0
    /\ (assign_state st0 ;; deriveFlags) this = (Ok tt, derived, [])
    /\ inProgress (state derived) = true
    /\ isPeerAlive now derived = (Ok false, derived, [])
    /\ r = Ok tt.
Proof.
  intros Hrun Hbefore Hafter.
  destruct (_getGameState accountInfo) as [st0|e] eqn:Hdec.
  - destruct (@derived_exists accountInfo this st0 Hdec)
      as (derived & Hder & Hab & _ & _ & _ & _ & _ & _).
    exists st0, derived. split; [reflexivity|]. split; [exact Hder|].
    rewrite (@onAccountChange_eq accountInfo now this derived st0 Hdec Hder) in Hrun.
    destruct (inProgress (state derived)).
    + rewrite isPeerAlive_eq in *. cbn [fst] in Hrun.
      destruct (rbind _ _) as [[]|e]; injection Hrun as <- <- <-;
        try congruence.
      repeat split.
    + injection Hrun as <- <- <-. congruence.
  - unfold _onAccountChange, bind, lift in Hrun. rewrite Hdec in Hrun.
    injection Hrun as <- <- <-. congruence.
Qed.

Lemma onAccountChange_calls
    (accountInfo : AccountInfo) (now : Z) (this final : TicTacToe)
    (r : result unit) (calls : list Call) :
  _onAccountChange accountInfo now this = (r, final, calls) ->
  calls = match r with
          | Ok _ => [ee_emit_change]
          | Throw _ => []
          end.
Proof.
  intros Hrun.
  destruct (_getGameState accountInfo) as [st0|e] eqn:Hdec.
  - destruct (@derived_exists accountInfo this st0 Hdec) as (derived & Hder & _).
    rewrite (@onAccountChange_eq accountInfo now this derived st0 Hdec Hder) in Hrun.
    destruct (inProgress (state derived)).
    + destruct (fst (fst (isPeerAlive now derived))) as [[]|e];
        now injection Hrun as <- <- <-.
    + now injection Hrun as <- <- <-.
  - unfold _onAccountChange, bind, lift in Hrun. rewrite Hdec in Hrun.
    now injection Hrun as <- <- <-.
Qed.

(** What a handler that returns leaves behind. *)
Lemma onAccountChange_Ok
    (accountInfo : AccountInfo) (now : Z) (this final : TicTacToe)
    (calls : list Call) :
  _onAccountChange accountInfo now this = (Ok tt, final, calls) ->
  exists st0 : TicTacToeGameState,
    _getGameState accountInfo = Ok st0
    /\ gameState (state final) = gameState st0
    /\ isX final = isX this
    /\ _changeSubscriptionId final = _changeSubscriptionId this
    /\ calls = [ee_emit_change].
Proof.
  intros Hrun. pose proof (onAccountChange_calls _ _ _ Hrun) as Hcalls.
  cbn in Hcalls.
  destruct (_getGameState accountInfo) as [st0|e] eqn:Hdec.
  - exists st0. split; [reflexivity|].
    destruct (@derived_exists accountInfo this st0 Hdec)
      as (derived & Hder & _ & Hx & Hs & _ & _ & Hgs & _).
    rewrite (@onAccountChange_eq accountInfo now this derived st0 Hdec Hder) in Hrun.
    destruct (inProgress (state derived)).
    + destruct (fst (fst (isPeerAlive now derived))) as [[]|e];
        try discriminate; injection Hrun as <- <-; cbn; now repeat split.
    + injection Hrun as <- <-. now repeat split.
  - unfold _onAccountChange, bind, lift in Hrun. rewrite Hdec in Hrun.
    discriminate.
Qed.

(** The handler calls nothing but the emitter, once and only when it
    returns: an update that throws has emitted nothing. *)
Theorem onAccountChange_emits_once_on_return
    (accountInfo : AccountInfo) (now : Z) (this final : TicTacToe)
    (r : result unit) (calls : list Call) :
  _onAccountChange accountInfo now this = (r, final, calls) ->
  calls = match r with
          | Ok _ => [ee_emit_change]
          | Throw _ => []
          end.
Proof. apply onAccountChange_calls. Qed.

(** The stored state is replaced wholesale: what the handler returns, calls
    and stores depends on the snapshot, the clock and [isX], not on the state
    (or anything else) the session held before. *)
Theorem onAccountChange_forgets_previous_state
    (accountInfo : AccountInfo) (now : Z) (this1 this2 : TicTacToe)
    (st0 : TicTacToeGameState) :
  _getGameState accountInfo = Ok st0 ->
  isX this1 = isX this2 ->
  fst (fst (_onAccountChange accountInfo now this1))
  = fst (fst (_onAccountChange accountInfo now this2))
  /\ snd (_onAccountChange accountInfo now this1)
     = snd (_onAccountChange accountInfo now this2)
  /\ state (snd (fst (_onAccountChange accountInfo now this1)))
     = state (snd (fst (_onAccountChange accountInfo now this2))).
Proof.
  intros Hdec Hx.
  pose proof (@deriveFlags_decoded R accountInfo this1 st0 Hdec) as H1.
  pose proof (@deriveFlags_decoded R accountInfo this2 st0 Hdec) as H2.
  rewrite (@onAccountChange_eq accountInfo now this1 _ st0 Hdec H1),
    (@onAccountChange_eq accountInfo now this2 _ st0 Hdec H2).
  rewrite !isPeerAlive_eq. cbn [state isX inProgress keep_alive fst].
  rewrite Hx.
  destruct (_ || _); [|now cbn].
  destruct (rbind _ _) as [[]|e]; now cbn.
Qed.

(** A peer marker that is not there: when [keep_alive] itself is
    [undefined] or [null], [isPeerAlive] throws a TypeError; when it is an
    array too short to hold the peer's entry, the entry reads as [undefined],
    the difference is NaN and the peer counts as not alive. *)
Theorem isPeerAlive_missing_marker (this : TicTacToe) (now : Z) :
  (keep_alive (state this) = VUndefined \/ keep_alive (state this) = VNull ->
   isPeerAlive now this = (Throw TypeError, this, []))
  /\ (forall items : list value,
        keep_alive (state this) = VArr items ->
        (List.length items <= (if isX this then 1 else 0))%nat ->
        isPeerAlive now this = (Ok false, this, [])).
Proof.
  split.
  - intros H. rewrite isPeerAlive_eq. destruct H as [-> | ->]; reflexivity.
  - intros items H Hshort. rewrite isPeerAlive_eq, H. cbn [get_index rbind].
    now rewrite nth_overflow.
Qed.

(** From the record to the session: with the game in progress and both
    markers numbers, the update keeps the session as derived when the peer's
    marker is less than 10000 ms old, and otherwise stores [inProgress] false
    and sets [abandoned]; the marker 0 that [abandon] sends is of the second
    kind for every clock from 10000 on. *)
Theorem onAccountChange_liveness_end_to_end
    (accountInfo : AccountInfo) (now : Z) (this : TicTacToe)
    (st0 : TicTacToeGameState) (keepAliveX keepAliveO : Z) :
  _getGameState accountInfo = Ok st0 ->
  inProgress st0 = true ->
  keep_alive st0 = VArr [VNum keepAliveX; VNum keepAliveO] ->
  exists derived : TicTacToe,
    (assign_state st0 ;; deriveFlags) this = (Ok tt, derived, [])
    /\ (now - (if isX this then keepAliveO else keepAliveX) < 10000 ->
        _onAccountChange accountInfo now this = (Ok tt, derived, [ee_emit_change])
        /\ inProgress (state derived) = true
        /\ abandoned derived = abandoned this)
    /\ (10000 <= now - (if isX this then keepAliveO else keepAliveX) ->
        _onAccountChange accountInfo now this
        = (Ok tt,
           {| abandoned := true; isX := isX derived;
              state := set_inProgress false (state derived);
              _changeSubscriptionId := _changeSubscriptionId derived |},
           [ee_emit_change]))
    /\ ((if isX this then keepAliveO else keepAliveX) = 0 -> 10000 <= now ->
        abandoned (snd (fst (_onAccountChange accountInfo now this))) = true).
Proof.
  intros Hdec Hp Hka.
  destruct (@derived_exists accountInfo this st0 Hdec)
    as (derived & Hder & Hab & Hx & _ & Hp' & Hka' & _ & _).
  exists derived. split; [exact Hder|].
  assert (fst (fst (isPeerAlive now derived))
          = Ok (now - (if isX this then keepAliveO else keepAliveX) <? 10000))
    as Halive.
  { rewrite isPeerAlive_eq, Hka', Hka, Hx. cbn [fst].
    destruct (isX this); reflexivity. }
  rewrite (@onAccountChange_eq accountInfo now this derived st0 Hdec Hder), Hp', Hp, Halive.
  split; [|split].
  - intros Hlt. apply Z.ltb_lt in Hlt. rewrite Hlt. repeat split; congruence.
  - intros Hge. apply Z.ltb_ge in Hge. now rewrite Hge.
  - intros H0 Hnow. rewrite H0.
    assert ((now - 0 <? 10000) = false) as -> by (apply Z.ltb_ge; lia).
    reflexivity.
Qed.

End HandlerFacts.

(** ** The event loop: what each event can touch *)

Section LoopFacts.
Context {R : Runtime}.
Local Open Scope method_scope.

Lemma step_timer_session (now : Z) (w : World) :
  isX (session (step (TimerFires now) w)) = isX (session w)
  /\ state (session (step (TimerFires now) w)) = state (session w)
  /\ abandoned (session (step (TimerFires now) w)) = abandoned (session w).
Proof.
  cbn [step]. destruct (timers w) as [|n]; [now repeat split|].
  rewrite perform_spec. cbn [session timers suspended trace].
  destruct (abandoned (session w)) eqn:Hab.
  - rewrite keepAliveTimeout_abandoned by assumption. cbn. now rewrite Hab.
  - rewrite keepAliveTimeout_cases by assumption.
    destruct (includes _ _); cbn; now rewrite Hab.
Qed.

Lemma step_settles_session (outcome : result unit) (id : nat) (w : World) :
  isX (session (step (KeepAliveSettles outcome id) w)) = isX (session w)
  /\ state (session (step (KeepAliveSettles outcome id) w)) = state (session w)
  /\ abandoned (session (step (KeepAliveSettles outcome id) w))
     = abandoned (session w).
Proof.
  cbn [step]. destruct (suspended w) as [|n]; [now repeat split|].
  rewrite perform_spec. cbn [session timers suspended trace snd].
  unfold keepAliveTimeout_resume, scheduleNextKeepAlive, try_catch, bind,
    get_this, lift, call, ret, assign__changeSubscriptionId.
  destruct outcome as [[]|err]; destruct (_changeSubscriptionId (session w));
    cbn; now repeat split.
Qed.

Lemma step_isX (e : Event) (w : World) :
  isX (session (step e w)) = isX (session w).
Proof.
  destruct e as [now|outcome id|info now|now outcome|when now outcome
                 |x y outcome|fn|fn];
    try (edestruct (@step_quiet) as (m & Hq & ->);
         [discriminate|discriminate|];
         rewrite perform_spec; cbn [snd session];
         specialize (Hq (session w));
         destruct (m (session w)) as [[r this] calls]; cbn [fst snd];
         now destruct Hq as (_ & Hx & _)).
  - apply step_timer_session.
  - apply step_settles_session.
Qed.

(** Only a snapshot changes the stored state. *)
Lemma step_state (e : Event) (w : World) :
  (forall info now, e <> AccountChanges info now) ->
  state (session (step e w)) = state (session w).
Proof.
  intros Hne.
  destruct e as [now|outcome id|info now|now outcome|when now outcome
                 |x y outcome|fn|fn].
  - apply step_timer_session.
  - apply step_settles_session.
  - now elim (Hne info now).
  - cbn [step]. rewrite perform_spec.
    unfold abandon, keepAlive, keepAlive_send, bind, assign_abandoned, call, lift.
    now destruct outcome as [[]|err].
  - cbn [step]. rewrite perform_spec. unfold keepAlive, keepAlive_send, bind, call, lift.
    now destruct outcome as [[]|err].
  - cbn [step]. rewrite perform_spec. unfold move, bind, call, lift.
    now destruct outcome as [[]|err].
  - reflexivity.
  - reflexivity.
Qed.

Lemma step_abandoned (e : Event) (w : World) :
  (forall info now, e <> AccountChanges info now) ->
  (forall now outcome, e <> CallsAbandon now outcome) ->
  abandoned (session (step e w)) = abandoned (session w).
Proof.
  intros Hne Hna.
  destruct e as [now|outcome id|info now|now outcome|when now outcome
                 |x y outcome|fn|fn].
  - apply step_timer_session.
  - apply step_settles_session.
  - now elim (Hne info now).
  - now elim (Hna now outcome).
  - cbn [step]. rewrite perform_spec. unfold keepAlive, keepAlive_send, bind, call, lift.
    now destruct outcome as [[]|err].
  - cbn [step]. rewrite perform_spec. unfold move, bind, call, lift.
    now destruct outcome as [[]|err].
  - reflexivity.
  - reflexivity.
Qed.

Lemma run_isX (events : list Event) (w : World) :
  isX (session (run events w)) = isX (session w).
Proof.
  revert w. induction events as [|e rest IH]; intros w; cbn [run];
    [reflexivity|]. now rewrite IH, step_isX.
Qed.

(** Which event can touch what: [isX] is the same after any run; the stored
    state changes only when a snapshot is handled (a move, a keep-alive or
    [abandon] sends a command and leaves the local state, the board included,
    as it is); [abandoned] changes only in a snapshot or in [abandon]. *)
Theorem session_fields_change_only_by
    (w : World) :
  (forall events : list Event, isX (session (run events w)) = isX (session w))
  /\ (forall e : Event,
        state (session (step e w)) <> state (session w) ->
        exists info now, e = AccountChanges info now)
  /\ (forall e : Event,
        abandoned (session (step e w)) <> abandoned (session w) ->
        (exists info now, e = AccountChanges info now)
        \/ (exists now outcome, e = CallsAbandon now outcome)).
Proof.
  split; [intros events; apply run_isX|]. split.
  - intros e Hchanged.
    destruct e as [now|outcome id|info now|now outcome|when now outcome
                   |x y outcome|fn|fn];
      try (elim Hchanged; apply step_state; discriminate).
    now exists info, now.
  - intros e Hchanged.
    destruct e as [now|outcome id|info now|now outcome|when now outcome
                   |x y outcome|fn|fn];
      try (elim Hchanged; apply step_abandoned; discriminate).
    + left. now exists info, now.
    + right. now exists now, outcome.
Qed.

(** One round of the loop, keep-alive delivered or not: the tick sends a
    KeepAlive carrying the clock, and when the transaction has settled the
    callback arms the timer again; a rejection only adds a [console.error].
    The session is as before, [abandoned] included. *)
Theorem keepAlive_round_survives_rejection
    (w : World) (now : Z) (outcome : result unit) (id held n : nat) :
  timers w = S n ->
  abandoned (session w) = false ->
  includes ["XWon"; "OWin"; "Draw"] (gameState (state (session w))) = false ->
  _changeSubscriptionId (session w) = Some held ->
  step (KeepAliveSettles outcome id) (step (TimerFires now) w)
  = {| session := session w;
       timers := S n;
       suspended := suspended w;
       trace := trace w
                ++ sendAndConfirmTransaction (KeepAlive now)
                   :: match outcome with
                      | Ok _ => [setTimeout 1000]
                      | Throw _ => [console_error; setTimeout 1000]
                      end |}.
Proof.
  intros Ht Hab Hincl Hheld. cbn [step]. rewrite Ht.
  rewrite perform_spec. cbn [session timers suspended trace].
  rewrite keepAliveTimeout_cases by assumption. rewrite Hincl.
  cbn [fst snd session timers suspended trace].
  rewrite perform_spec. cbn [session timers suspended trace snd].
  rewrite (keepAliveTimeout_resume_held _ outcome id Hheld).
  cbn [fst snd]. rewrite <- app_assoc. f_equal.
  destruct outcome as [[]|err]; cbn; lia.
Qed.

(** With the loop over, an event changes neither the subscription nor the
    counts of subscriptions taken and given back. *)
Lemma loop_over_step_same (e : Event) (w : World) :
  loop_over w = true ->
  _changeSubscriptionId (session (step e w)) = _changeSubscriptionId (session w)
  /\ acquisitions (trace (step e w)) = acquisitions (trace w)
  /\ releases (trace (step e w)) = releases (trace w).
Proof.
  unfold loop_over. intros H. apply andb_true_iff in H. destruct H as [Ht Hs].
  apply Nat.eqb_eq in Ht, Hs.
  destruct e as [now|outcome id|info now|now outcome|when now outcome
                 |x y outcome|fn|fn];
    try (edestruct (@step_quiet) as (m & Hq & ->);
         [discriminate|discriminate|];
         destruct (perform_quiet w Hq) as (H1 & _ & _ & H2 & H3 & _);
         now repeat split).
  - cbn [step]. now rewrite Ht.
  - cbn [step]. now rewrite Hs.
Qed.

Lemma loop_over_run_same (events : list Event) (w : World) :
  loop_over w = true ->
  loop_over (run events w) = true
  /\ _changeSubscriptionId (session (run events w)) = _changeSubscriptionId (session w)
  /\ acquisitions (trace (run events w)) = acquisitions (trace w)
  /\ releases (trace (run events w)) = releases (trace w).
Proof.
  revert w. induction events as [|e rest IH]; intros w Hover; cbn [run];
    [now repeat split|].
  destruct (loop_over_step_same e w Hover) as (H1 & H2 & H3).
  destruct (IH (step e w) (loop_over_step e w Hover)) as (H0 & H1' & H2' & H3').
  repeat split; congruence.
Qed.

(** The end of the loop is final: with no timer armed and no callback
    suspended, nothing that runs later arms a timer, takes a subscription or
    gives one back; the subscription field stays what it was. *)
Theorem loop_over_is_final (events : list Event) (w : World) :
  loop_over w = true ->
  timers (run events w) = 0%nat
  /\ suspended (run events w) = 0%nat
  /\ _changeSubscriptionId (session (run events w)) = _changeSubscriptionId (session w)
  /\ acquisitions (trace (run events w)) = acquisitions (trace w)
  /\ releases (trace (run events w)) = releases (trace w).
Proof.
  intros Hover. destruct (loop_over_run_same events w Hover) as (H0 & H1 & H2 & H3).
  unfold loop_over in H0. apply andb_true_iff in H0. destruct H0 as [Ht Hs].
  apply Nat.eqb_eq in Ht, Hs. now repeat split.
Qed.

(** A started session has one loop: at any time at most one timer is armed
    or one callback suspended, never both, and for as long as the loop is not
    over the subscription is held. *)
Theorem started_session_single_loop (w0 : World) (events : list Event) :
  (exists allocated sent id, create allocated sent id = Ok w0)
  \/ (exists now sent fetched now' id, join now sent fetched now' id = Ok w0) ->
  (timers (run events w0) + suspended (run events w0) <= 1)%nat
  /\ (loop_over (run events w0) = false ->
      exists held : nat, _changeSubscriptionId (session (run events w0)) = Some held).
Proof.
  intros Hstart.
  pose proof (run_one_subscription events (started_one_subscription Hstart))
    as (Hloop & _ & Hsub).
  split; [exact Hloop|]. intros Hnot.
  destruct (_changeSubscriptionId (session (run events w0))) as [held|];
    [now exists held|].
  destruct Hsub as (_ & Ht & Hs). unfold loop_over in Hnot.
  rewrite Ht, Hs in Hnot. discriminate.
Qed.

(** The tick that finds the game won by X or drawn ends the loop and keeps
    the subscription, and nothing gives it back afterwards, not even
    [abandon]: the count of subscriptions given back stays 0. *)
Theorem game_over_tick_keeps_subscription
    (w0 : World) (before after : list Event) (now : Z) :
  (exists allocated sent id, create allocated sent id = Ok w0)
  \/ (exists now sent fetched now' id, join now sent fetched now' id = Ok w0) ->
  timers (run before w0) <> 0%nat ->
  abandoned (session (run before w0)) = false ->
  gameState (state (session (run before w0))) = VStr "XWon"
  \/ gameState (state (session (run before w0))) = VStr "Draw" ->
  loop_over (step (TimerFires now) (run before w0)) = true
  /\ (exists held : nat,
        _changeSubscriptionId
          (session (run after (step (TimerFires now) (run before w0))))
        = Some held)
  /\ releases (trace (run after (step (TimerFires now) (run before w0)))) = 0%nat.
Proof.
  intros Hstart Ht Hab Hgs.
  pose proof (run_one_subscription before (started_one_subscription Hstart))
    as (Hloop & _ & Hsub).
  set (w := run before w0) in *.
  destruct (timers w) as [|n] eqn:Htimers; [now elim Ht|].
  destruct (_changeSubscriptionId (session w)) as [held|] eqn:Hheld; [|lia].
  assert (step (TimerFires now) w
          = {| session := session w; timers := n; suspended := suspended w;
               trace := trace w |}) as Hstep.
  { cbn [step]. rewrite Htimers, perform_spec.
    cbn [session timers suspended trace].
    rewrite keepAliveTimeout_game_over by assumption.
    cbn [fst snd]. rewrite app_nil_r. f_equal. cbn. lia. }
  assert (loop_over (step (TimerFires now) w) = true) as Hover.
  { rewrite Hstep. unfold loop_over. cbn [timers suspended].
    assert (n = 0%nat) as -> by lia. assert (suspended w = 0%nat) as -> by lia.
    reflexivity. }
  split; [exact Hover|].
  destruct (loop_over_run_same after _ Hover) as (_ & H1 & _ & H3).
  rewrite H1, H3, Hstep. cbn [session trace]. split; [now exists held|].
  now rewrite Hsub.
Qed.

End LoopFacts.

(** ** Joining a game *)

Section JoinFacts.
Context {R : Runtime}.
Local Open Scope method_scope.

(** [join] step by step: a rejected Join command, a rejected fetch or a
    snapshot that does not decode makes [join] fail with that error (the
    command has been sent all the same); when [join] returns, the session is
    player O with the fetched state stored, 'change' emitted once, and only
    then the subscription taken and the timer armed. *)
Theorem join_outcome
    (now : Z) (sent : result unit) (fetched : result AccountInfo) (now' : Z)
    (id : nat) :
  (forall e : Error, sent = Throw e -> join now sent fetched now' id = Throw e)
  /\ (forall e : Error,
        sent = Ok tt -> fetched = Throw e ->
        join now sent fetched now' id = Throw e)
  /\ (forall (accountInfo : AccountInfo) (e : Error),
        sent = Ok tt -> fetched = Ok accountInfo ->
        _getGameState accountInfo = Throw e ->
        join now sent fetched now' id = Throw e)
  /\ (forall w : World,
        join now sent fetched now' id = Ok w ->
        isX (session w) = false
        /\ _changeSubscriptionId (session w) = Some id
        /\ timers w = 1%nat /\ suspended w = 0%nat
        /\ trace w = [sendAndConfirmTransaction (Join now); getAccountInfo;
                      ee_emit_change; onAccountChange id; setTimeout 1000]
        /\ exists (accountInfo : AccountInfo) (st0 : TicTacToeGameState),
            sent = Ok tt /\ fetched = Ok accountInfo
            /\ _getGameState accountInfo = Ok st0
            /\ gameState (state (session w)) = gameState st0).
Proof.
  split; [|split; [|split]].
  - intros e ->. reflexivity.
  - intros e -> ->. reflexivity.
  - intros accountInfo e -> -> Hdec. unfold join, perform, bind, call, lift.
    cbn [session]. unfold _onAccountChange, bind, lift. now rewrite Hdec.
  - intros w. unfold join, perform. cbn [session timers suspended trace].
    destruct sent as [[]|e]; [|discriminate].
    destruct fetched as [accountInfo|e]; [|discriminate].
    unfold bind at 1 2 3 4 5, call at 1 2, lift. cbn [app].
    destruct (_onAccountChange accountInfo now' (new_TicTacToe false))
      as [[[[]|e] final] calls] eqn:Hrun; [|discriminate].
    destruct (onAccountChange_Ok _ _ _ Hrun) as (st0 & Hdec & Hgs & Hx & Hs & ->).
    cbn in Hx, Hs.
    unfold scheduleNextKeepAlive, bind, get_this, call, ret,
      assign__changeSubscriptionId. rewrite Hs. cbn.
    intros H. injection H as <-. cbn.
    repeat (split; [reflexivity || assumption|]).
    exists accountInfo, st0. now repeat split.
Qed.

End JoinFacts.

(** ** The board component *)

Section BoardFacts.
Context {R : Runtime}.
Variable F : Type.

Lemma render_array (props : BoardProps F) (items : list value) :
  squares props = VArr items ->
  render props
  = Ok (let square := fun k =>
                        Square {| sq_disabled := disabled props;
                                  sq_value := nth k items VUndefined;
                                  sq_bsSize := bsSize props;
                                  sq_onClick := {| callee := onClick props;
                                                   argument := k |} |} in
        [[square 0%nat; square 1%nat; square 2%nat];
         [square 3%nat; square 4%nat; square 5%nat];
         [square 6%nat; square 7%nat; square 8%nat]]).
Proof. intros H. unfold render, renderSquare. rewrite H. reflexivity. Qed.

(** [Board] draws three rows of three buttons; the button in place [k]
    (rows first) shows cell [k] of [squares], with '-' for a blank cell and
    nothing for a cell the array does not have, and its click calls the
    caller's [onClick] with [k]; every button gets the board's [disabled] and
    size.  Without a [squares] array at all, rendering throws a TypeError. *)
Theorem Board_render_grid (props : BoardProps F) :
  (forall items : list value,
      squares props = VArr items ->
      exists rows : list (list (ButtonElement (Closure F))),
        render props = Ok rows
        /\ map (@List.length _) rows = [3; 3; 3]%nat
        /\ map (fun b => argument (btn_onClick b)) (List.concat rows) = seq 0 9
        /\ (forall (k : nat) (b : ButtonElement (Closure F)),
              nth_error (List.concat rows) k = Some b ->
              btn_children b
              = (if strict_eq_str (nth k items VUndefined) " " then VStr "-"
                 else nth k items VUndefined)
              /\ callee (btn_onClick b) = onClick props
              /\ btn_disabled b = disabled props
              /\ btn_style b
                 = (if strict_eq_str (bsSize props) "large"
                    then {| width := "70px"; height := "70px" |}
                    else {| width := "35px"; height := "35px" |})))
  /\ (squares props = VUndefined \/ squares props = VNull ->
      render props = Throw TypeError).
Proof.
  split.
  - intros items H. eexists.
    split; [apply render_array with (items := items); exact H|].
    cbv zeta. split; [reflexivity|]. split; [reflexivity|].
    intros k b. cbn [List.concat app].
    do 9 (destruct k as [|k];
          [intros Hb; injection Hb as <-; cbn; now repeat split|]).
    cbn. now destruct k.
  - intros [H|H]; unfold render, renderSquare; now rewrite H.
Qed.

(** From the wire to the screen: when [squares] is the board of a decoded
    object, the button in place [k] shows '-' where the record has 'F' (or a
    blank) and the record's own cell otherwise, so 'X' and 'O' as they are;
    no button shows 'F' or a blank. *)
Theorem Board_shows_decoded_board
    (props : BoardProps F) (accountInfo : AccountInfo) (st : TicTacToeGameState)
    (game : value) (cells : list value) :
  _getGameState accountInfo = Ok st ->
  decodeGame accountInfo = Ok game ->
  get_field game "board" = Ok (VArr cells) ->
  squares props = board st ->
  exists rows : list (list (ButtonElement (Closure F))),
    render props = Ok rows
    /\ (forall (k : nat) (b : ButtonElement (Closure F)),
          nth_error (List.concat rows) k = Some b ->
          btn_children b
          = (if strict_eq_str (nth k cells VUndefined) "F"
                || strict_eq_str (nth k cells VUndefined) " "
             then VStr "-"
             else nth k cells VUndefined)
          /\ strict_eq_str (btn_children b) "F" = false
          /\ strict_eq_str (btn_children b) " " = false).
Proof.
  intros Hok Hgame Hboard Hsq.
  destruct (getGameState_inv _ Hok)
    as (game' & px & po & b0 & kx & Hg & _ & _ & _ & _ & _ & _ & Hb & Hmap & _).
  assert (game' = game) as -> by congruence.
  assert (b0 = VArr cells) as -> by congruence.
  destruct (map_board_cells cells) as (sq & Hsq' & _ & Hnth & _).
  assert (squares props = VArr sq) as Harr by congruence.
  eexists. split; [apply render_array with (items := sq); exact Harr|].
  cbv zeta. intros k b. cbn [List.concat app].
  assert (forall j : nat,
             let shown := if strict_eq_str (nth j sq VUndefined) " " then VStr "-"
                          else nth j sq VUndefined in
             shown = (if strict_eq_str (nth j cells VUndefined) "F"
                         || strict_eq_str (nth j cells VUndefined) " "
                      then VStr "-"
                      else nth j cells VUndefined)
             /\ strict_eq_str shown "F" = false
             /\ strict_eq_str shown " " = false) as Hshown.
  { intros j. cbn zeta. rewrite Hnth.
    destruct (strict_eq_str (nth j cells VUndefined) "F") eqn:EF; cbn [orb].
    - now cbn.
    - destruct (strict_eq_str (nth j cells VUndefined) " ") eqn:EB.
      + now cbn.
      + now rewrite EF, EB. }
  do 9 (destruct k as [|k];
        [intros Hb'; injection Hb' as <-; cbn [Square btn_children sq_value];
         apply Hshown|]).
  cbn. now destruct k.
Qed.

End BoardFacts.

(** * Concrete runs

    The statements above at the sample runtime and the sample accounts. *)

(** C2 at a buffer whose prefix fits exactly: 16 bytes, prefix 12.
    [length + 4] does not exceed the size, and the buffer is refused. *)
Lemma getGameState_exact_fit_refused :
  readUInt32LE (userdata (sample_account x0c x01)) 0 = Ok 12
  /\ 12 + 4 = Z.of_nat (List.length (userdata (sample_account x0c x01)))
  /\ ~ (12 + 4 > Z.of_nat (List.length (userdata (sample_account x0c x01))))
  /\ _getGameState (sample_account x0c x01) = Throw InvalidGameStateLength.
Proof.
  split; [reflexivity|]. split; [reflexivity|]. split; [cbn; lia|reflexivity].
Qed.

(** The length check at the same buffer. *)
Lemma getGameState_length_check_witness :
  readUInt32LE (userdata (sample_account x0c x01)) 0 = Ok 12
  /\ ((_getGameState (sample_account x0c x01) = Throw InvalidGameStateLength <->
       12 + 4 >= Z.of_nat (List.length (userdata (sample_account x0c x01))))
      /\ (12 + 4 >= Z.of_nat (List.length (userdata (sample_account x0c x01))) ->
          forall decoder : list byte -> string + value,
            @_getGameState (with_decoder sample_runtime decoder) (sample_account x0c x01)
            = Throw InvalidGameStateLength)).
Proof.
  split; [reflexivity|].
  apply (@getGameState_length_check sample_runtime (sample_account x0c x01) 12).
  reflexivity.
Defined.



(** The static fetch of a game X has won: no winner flag. *)
Lemma getGameState_no_turn_no_winner_witness :
  exists st : TicTacToeGameState,
    getGameState (Ok (sample_account x08 x04)) = Ok st
    /\ gameState st = VStr "XWon"
    /\ myTurn st = false /\ winner st = false.
Proof.
  eexists. split; [reflexivity|]. split; [reflexivity|].
  pose proof (@getGameState_no_turn_no_winner sample_runtime
                (sample_account x08 x04) _ eq_refl) as H.
  split; apply H.
Defined.

(** C3 at a rejected transaction: [abandon] is rejected too and
    [console.error] is not called. *)
Lemma abandon_rejection_escalates :
  exists (this' : TicTacToe) (calls : list Call),
    abandon 5000 (Throw (Foreign "NetworkError")) (sample_session true false x01)
    = (Throw (Foreign "NetworkError"), this', calls)
    /\ count is_console_error calls = 0%nat
    /\ abandoned this' = true.
Proof. do 2 eexists. split; [reflexivity|]. split; reflexivity. Qed.

(** X was last heard of at 1000 and O at 3000: X looks at 3000, O at 1000,
    and the peer is alive up to 9999 ms later. *)
Lemma isPeerAlive_threshold_witness :
  keep_alive (state (sample_session true false x08)) = VArr [VNum 1000; VNum 3000]
  /\ isPeerAlive 12999 (sample_session true false x08)
     = (Ok true, sample_session true false x08, [])
  /\ isPeerAlive 13000 (sample_session true false x08)
     = (Ok false, sample_session true false x08, [])
  /\ isPeerAlive 10999 (sample_session false false x08)
     = (Ok true, sample_session false false x08, [])
  /\ isPeerAlive 11000 (sample_session false false x08)
     = (Ok false, sample_session false false x08, []).
Proof.
  split; [reflexivity|]. split; [|split; [|split]].
  - apply (proj1 (proj2 (proj2 (@isPeerAlive_threshold sample_runtime
             (sample_session true false x08) 12999 1000 3000 eq_refl)))).
    reflexivity.
  - apply (proj2 (proj2 (proj2 (@isPeerAlive_threshold sample_runtime
             (sample_session true false x08) 13000 1000 3000 eq_refl)))).
    reflexivity.
  - apply (proj1 (proj2 (proj2 (@isPeerAlive_threshold sample_runtime
             (sample_session false false x08) 10999 1000 3000 eq_refl)))).
    reflexivity.
  - apply (proj2 (proj2 (proj2 (@isPeerAlive_threshold sample_runtime
             (sample_session false false x08) 11000 1000 3000 eq_refl)))).
    reflexivity.
Defined.

(** The three decoding failures, each leaving the session as it was. *)
Lemma onAccountChange_decode_failure_witness :
  _onAccountChange (sample_account x0c x01) 5000 (sample_session true false x01)
  = (Throw InvalidGameStateLength, sample_session true false x01, [])
  /\ _onAccountChange (sample_account x08 x07) 5000 (sample_session true false x01)
     = (Throw InvalidGameStateType, sample_session true false x01, [])
  /\ _onAccountChange (sample_account x08 x06) 5000 (sample_session true false x01)
     = (Throw UnhandledGameState, sample_session true false x01, []).
Proof.
  split; [|split].
  - apply (proj1 (@onAccountChange_decode_failure sample_runtime
                    (sample_account x0c x01) 5000 (sample_session true false x01))).
    reflexivity.
  - apply (proj1 (@onAccountChange_decode_failure sample_runtime
                    (sample_account x08 x07) 5000 (sample_session true false x01))).
    reflexivity.
  - apply (proj1 (@onAccountChange_decode_failure sample_runtime
                    (sample_account x08 x06) 5000 (sample_session true false x01))).
    reflexivity.
Defined.

(** Player X decoding an XMove record: it is X's turn and the game is in
    progress. *)
Lemma derived_view_phase_table_witness :
  exists (st0 : TicTacToeGameState) (derived : TicTacToe),
    _getGameState (sample_account x08 x01) = Ok st0
    /\ (assign_state st0 ;; deriveFlags)%method (new_TicTacToe true)
       = (Ok tt, derived, [])
    /\ myTurn (state derived) = true
    /\ inProgress (state derived) = true.
Proof.
  eexists.
  destruct (@derived_view_phase_table sample_runtime (sample_account x08 x01) 5000
              (new_TicTacToe true) _ eq_refl)
    as (derived & Hrun & _ & _ & _ & _ & HX & _ & _ & _ & _ & Hp & _).
  exists derived. split; [reflexivity|]. split; [exact Hrun|].
  split; [exact (HX eq_refl)|]. apply Hp. left. reflexivity.
Defined.

(** An XMove record handled 10000 ms after O was last heard of; and an
    abandoned session that receives a fresh record and a tick. *)
Lemma peer_inactive_abandons_for_good_witness :
  (exists final : TicTacToe,
      _onAccountChange (sample_account x08 x01) 11000 (new_TicTacToe true)
      = (Ok tt, final, [ee_emit_change])
      /\ abandoned final = true
      /\ inProgress (state final) = false)
  /\ abandoned
       (session (run [AccountChanges (sample_account x08 x01) 5000;
                      TimerFires 6000]
                     {| session := sample_session true true x01; timers := 1;
                        suspended := 0; trace := [] |}))
     = true.
Proof.
  split.
  - eexists. split; [|split].
    + eapply (proj1 (@peer_inactive_abandons_for_good sample_runtime));
        reflexivity.
    + reflexivity.
    + reflexivity.
  - apply (proj2 (@peer_inactive_abandons_for_good sample_runtime)).
    reflexivity.
Defined.

(** The tick of player X in phase OWon. *)
Lemma keepAliveTimeout_OWon_goes_on_witness :
  gameState (state (sample_session true false x05)) = VStr "OWon"
  /\ keepAliveTimeout 6000 (sample_session true false x05)
     = (Ok AwaitingKeepAlive, sample_session true false x05,
        [sendAndConfirmTransaction (KeepAlive 6000)]).
Proof.
  split; [reflexivity|].
  apply (proj1 (@keepAliveTimeout_OWon_goes_on sample_runtime
                  (sample_session true false x05) 6000 (Ok tt) 8 7
                  eq_refl eq_refl eq_refl)).
Defined.

(** The loop of a session that has seen OWon is still running two ticks
    later; in XWon the first tick ends it. *)
Example loop_survives_OWon :
  timers (run [AccountChanges (sample_account x08 x05) 5000;
               TimerFires 6000; KeepAliveSettles (Ok tt) 8;
               TimerFires 7000; KeepAliveSettles (Ok tt) 8] sample_world)
  = 1%nat
  /\ loop_over (run [AccountChanges (sample_account x08 x04) 5000;
                     TimerFires 6000] sample_world)
     = true.
Proof. split; reflexivity. Qed.


(** * Concrete runs of the further properties *)

(** The empty account and an account of four bytes. *)
Lemma getGameState_needs_five_bytes_witness :
  _getGameState {| userdata := [] |} = Throw RangeError
  /\ _getGameState {| userdata := [x00; x00; x00; x00] |} = Throw InvalidGameStateLength.
Proof.
  split.
  - apply (proj1 (@getGameState_needs_five_bytes sample_runtime {| userdata := [] |})).
    cbn. lia.
  - apply (proj1 (proj2 (@getGameState_needs_five_bytes sample_runtime
                           {| userdata := [x00; x00; x00; x00] |}))).
    reflexivity.
Defined.

(** Prefixes 8 and 3 before the same twelve bytes. *)
Lemma getGameState_prefix_only_guards_witness :
  _getGameState (sample_account x08 x01) = _getGameState (sample_account x03 x01).
Proof.
  apply (proj1 (@getGameState_prefix_only_guards sample_runtime
                  x08 x00 x00 x00 x03 x00 x00 x00
                  [x01; x00; x00; x00; x00; x00; x00; x00; x00; x00; x00; x00]
                  ltac:(cbn; lia) ltac:(cbn; lia))).
Defined.

(** Bytes CBOR cannot read, a payload that is [null], a tag with nothing
    after it. *)
Lemma getGameState_decode_errors_witness :
  _getGameState (sample_account x08 x09) = Throw (Foreign "Insufficient data")
  /\ @_getGameState edge_runtime (sample_account x08 x02) = Throw TypeError
  /\ @_getGameState edge_runtime (sample_account x08 x03) = Throw TypeError.
Proof.
  split; [|split].
  - apply (proj1 (@getGameState_decode_errors sample_runtime (sample_account x08 x09) 8
                    eq_refl ltac:(cbn; lia))).
    reflexivity.
  - apply (proj1 (proj2 (@getGameState_decode_errors edge_runtime
                           (sample_account x08 x02) 8 eq_refl ltac:(cbn; lia)))).
    left. reflexivity.
  - apply (proj2 (proj2 (@getGameState_decode_errors edge_runtime
                           (sample_account x08 x03) 8 eq_refl ltac:(cbn; lia)))
             (VArr [VStr "Game"])); [reflexivity|reflexivity|].
    left. reflexivity.
Defined.

(** The board X F F / F O F / F F F as decoded. *)
Lemma getGameState_board_witness :
  exists (st : TicTacToeGameState) (squares : list value),
    _getGameState (sample_account x08 x01) = Ok st
    /\ board st = VArr squares
    /\ List.length squares = 9%nat
    /\ Forall (fun v => strict_eq_str v "F" = false) squares.
Proof.
  eexists.
  destruct (@getGameState_board sample_runtime (sample_account x08 x01) _ _ _
              eq_refl eq_refl eq_refl)
    as (squares & Hb & Hlen & _ & HnoF).
  exists squares. split; [reflexivity|]. split; [exact Hb|]. split; assumption.
Defined.

(** A record without a [board]. *)
Lemma getGameState_board_required_witness :
  @_getGameState edge_runtime (sample_account x08 x04) = Throw TypeError
  /\ ~ (exists st : TicTacToeGameState,
          @_getGameState edge_runtime (sample_account x08 x04) = Ok st).
Proof.
  split; [reflexivity|]. intros (st & Hok). revert Hok.
  apply (@getGameState_board_required edge_runtime (sample_account x08 x04) _ VUndefined
           eq_refl eq_refl); discriminate.
Defined.

(** A waiting game: [player_o] is [null]. *)
Lemma getGameState_players_witness :
  exists st : TicTacToeGameState,
    @_getGameState edge_runtime (sample_account x08 x05) = Ok st
    /\ playerO st = None
    /\ playerX st <> None.
Proof.
  eexists. split; [reflexivity|].
  destruct (@getGameState_players edge_runtime (sample_account x08 x05) _ _ VNull
              eq_refl eq_refl eq_refl) as (HX & HO).
  split; [apply HO; reflexivity|exact HX].
Defined.

(** An XMove record without [keep_alive]. *)
Lemma onAccountChange_keep_alive_missing_witness :
  exists derived : @TicTacToe edge_runtime,
    @_onAccountChange edge_runtime (sample_account x08 x00) 5000 (new_TicTacToe true)
    = (Throw TypeError, derived, [])
    /\ gameState (state derived) = VStr "XMove"
    /\ abandoned derived = false.
Proof.
  destruct (@onAccountChange_keep_alive_missing edge_runtime (sample_account x08 x00)
              5000 (new_TicTacToe true) _ eq_refl eq_refl (or_introl eq_refl))
    as (derived & _ & Hrun & Hgs & Hab).
  exists derived. split; [exact Hrun|]. split; [exact Hgs|exact Hab].
Defined.

(** Player X hears of an XMove record 10000 ms after O's marker. *)
Lemma onAccountChange_abandons_only_inactive_peer_witness :
  exists (st0 : TicTacToeGameState) (derived : TicTacToe),
    _getGameState (sample_account x08 x01) = Ok st0
    /\ inProgress (state derived) = true
    /\ isPeerAlive 11000 derived = (Ok false, derived, []).
Proof.
  destruct (@onAccountChange_abandons_only_inactive_peer sample_runtime
              (sample_account x08 x01) 11000 (new_TicTacToe true) _ _ _
              eq_refl eq_refl eq_refl)
    as (st0 & derived & Hdec & _ & Hp & Hdead & _).
  exists st0, derived. split; [exact Hdec|]. split; [exact Hp|exact Hdead].
Defined.

(** One update that returns and one that throws. *)
Lemma onAccountChange_emits_once_on_return_witness :
  snd (_onAccountChange (sample_account x08 x01) 5000 (new_TicTacToe true))
  = [ee_emit_change]
  /\ snd (_onAccountChange (sample_account x08 x06) 5000 (new_TicTacToe true)) = [].
Proof.
  split.
  - apply (@onAccountChange_emits_once_on_return sample_runtime
             (sample_account x08 x01) 5000 (new_TicTacToe true) _ (Ok tt) _ eq_refl).
  - apply (@onAccountChange_emits_once_on_return sample_runtime
             (sample_account x08 x06) 5000 (new_TicTacToe true) _
             (Throw UnhandledGameState) _ eq_refl).
Defined.

(** The same snapshot handled by a fresh session and by one that had seen a
    draw. *)
Lemma onAccountChange_forgets_previous_state_witness :
  state (snd (fst (_onAccountChange (sample_account x08 x01) 5000
                     (new_TicTacToe true))))
  = state (snd (fst (_onAccountChange (sample_account x08 x01) 5000
                       (sample_session true true x03)))).
Proof.
  apply (proj2 (proj2 (@onAccountChange_forgets_previous_state sample_runtime
                         (sample_account x08 x01) 5000 (new_TicTacToe true)
                         (sample_session true true x03) _ eq_refl eq_refl))).
Defined.

(** A session whose stored [keep_alive] is the empty array. *)
Lemma isPeerAlive_missing_marker_witness :
  keep_alive (state (snd (fst (@_onAccountChange edge_runtime (sample_account x08 x01)
                                 5000 (new_TicTacToe true)))))
  = VArr []
  /\ @isPeerAlive edge_runtime 5000
       (snd (fst (@_onAccountChange edge_runtime (sample_account x08 x01) 5000
                    (new_TicTacToe true))))
     = (Ok false,
        snd (fst (@_onAccountChange edge_runtime (sample_account x08 x01) 5000
                    (new_TicTacToe true))),
        []).
Proof.
  split; [reflexivity|].
  apply (proj2 (@isPeerAlive_missing_marker edge_runtime
                  (snd (fst (@_onAccountChange edge_runtime (sample_account x08 x01)
                               5000 (new_TicTacToe true))))
                  5000) []); [reflexivity|].
  cbn. lia.
Defined.

(** Player O and a record whose X marker is the 0 of [abandon]; player X
    and the same record with O heard of at 9000. *)
Lemma onAccountChange_liveness_end_to_end_witness :
  abandoned (snd (fst (@_onAccountChange edge_runtime (sample_account x08 x06) 10000
                         (new_TicTacToe false))))
  = true
  /\ exists derived : @TicTacToe edge_runtime,
      @_onAccountChange edge_runtime (sample_account x08 x06) 10000 (new_TicTacToe true)
      = (Ok tt, derived, [ee_emit_change])
      /\ abandoned derived = false.
Proof.
  split.
  - destruct (@onAccountChange_liveness_end_to_end edge_runtime (sample_account x08 x06)
                10000 (new_TicTacToe false) _ 0 9000 eq_refl eq_refl eq_refl)
      as (derived & _ & _ & _ & Hzero).
    apply Hzero; [reflexivity|lia].
  - destruct (@onAccountChange_liveness_end_to_end edge_runtime (sample_account x08 x06)
                10000 (new_TicTacToe true) _ 0 9000 eq_refl eq_refl eq_refl)
      as (derived & _ & Halive & _).
    exists derived. destruct Halive as (Hrun & _ & Hab); [cbn; lia|].
    split; [exact Hrun|exact Hab].
Defined.

(** A move on the session [create] started. *)
Lemma session_fields_change_only_by_witness :
  isX (session (run [CallsMove 0 0 (Ok tt); TimerFires 6000] sample_world)) = true.
Proof.
  apply (proj1 (@session_fields_change_only_by sample_runtime sample_world)
           [CallsMove 0 0 (Ok tt); TimerFires 6000]).
Defined.

(** The first round of the session [create] started, the keep-alive
    rejected. *)
Lemma keepAlive_round_survives_rejection_witness :
  timers (step (KeepAliveSettles (Throw (Foreign "NetworkError")) 8)
            (step (TimerFires 6000) sample_world))
  = 1%nat
  /\ count is_console_error
       (trace (step (KeepAliveSettles (Throw (Foreign "NetworkError")) 8)
                 (step (TimerFires 6000) sample_world)))
     = 1%nat.
Proof.
  rewrite (@keepAlive_round_survives_rejection sample_runtime sample_world 6000
             (Throw (Foreign "NetworkError")) 8 7 0 eq_refl eq_refl eq_refl eq_refl).
  split; reflexivity.
Defined.

(** After the tick that saw XWon, a tick and a settled keep-alive find
    nothing to run. *)
Lemma loop_over_is_final_witness :
  timers (run [TimerFires 7000; KeepAliveSettles (Ok tt) 8; CallsAbandon 8000 (Ok tt);
               TimerFires 9000]
            (run [AccountChanges (sample_account x08 x04) 5000; TimerFires 6000]
               sample_world))
  = 0%nat.
Proof.
  apply (@loop_over_is_final sample_runtime
           [TimerFires 7000; KeepAliveSettles (Ok tt) 8; CallsAbandon 8000 (Ok tt);
            TimerFires 9000]
           (run [AccountChanges (sample_account x08 x04) 5000; TimerFires 6000]
              sample_world)).
  reflexivity.
Defined.

(** The session [create] started, two rounds on. *)
Lemma started_session_single_loop_witness :
  (timers (run [TimerFires 6000; KeepAliveSettles (Ok tt) 8; TimerFires 7000]
             sample_world)
   + suspended (run [TimerFires 6000; KeepAliveSettles (Ok tt) 8; TimerFires 7000]
                  sample_world)
   <= 1)%nat.
Proof.
  apply (@started_session_single_loop sample_runtime sample_world
           [TimerFires 6000; KeepAliveSettles (Ok tt) 8; TimerFires 7000]).
  left. exists (Ok tt), (Ok tt), 7%nat. reflexivity.
Defined.

(** X has won, the loop ends, and [abandon] comes too late. *)
Lemma game_over_tick_keeps_subscription_witness :
  releases (trace (run [CallsAbandon 7000 (Ok tt); TimerFires 8000]
                     (step (TimerFires 6000)
                        (run [AccountChanges (sample_account x08 x04) 5000]
                           sample_world))))
  = 0%nat
  /\ abandoned (session (run [CallsAbandon 7000 (Ok tt); TimerFires 8000]
                           (step (TimerFires 6000)
                              (run [AccountChanges (sample_account x08 x04) 5000]
                                 sample_world))))
     = true.
Proof.
  split; [|reflexivity].
  apply (@game_over_tick_keeps_subscription sample_runtime sample_world
           [AccountChanges (sample_account x08 x04) 5000]
           [CallsAbandon 7000 (Ok tt); TimerFires 8000] 6000).
  - left. exists (Ok tt), (Ok tt), 7%nat. reflexivity.
  - discriminate.
  - reflexivity.
  - left. reflexivity.
Defined.

(** Joining the sample game in XMove; joining when the fetch is rejected. *)
Lemma join_outcome_witness :
  (exists w : World,
      join 1 (Ok tt) (Ok (sample_account x08 x01)) 5000 7 = Ok w
      /\ isX (session w) = false
      /\ trace w = [sendAndConfirmTransaction (Join 1); getAccountInfo;
                    ee_emit_change; onAccountChange 7; setTimeout 1000])
  /\ join 1 (Ok tt) (Throw (Foreign "NetworkError")) 5000 7
     = Throw (Foreign "NetworkError").
Proof.
  split.
  - eexists. split; [reflexivity|].
    pose proof (proj2 (proj2 (proj2 (@join_outcome sample_runtime 1 (Ok tt)
                                       (Ok (sample_account x08 x01)) 5000 7)))
                  _ eq_refl) as H.
    split; apply H.
  - apply (proj1 (proj2 (@join_outcome sample_runtime 1 (Ok tt)
                           (Throw (Foreign "NetworkError")) 5000 7)));
      reflexivity.
Defined.

(** A large board with one X, the rest blank. *)
Lemma Board_render_grid_witness :
  exists rows : list (list (ButtonElement (Closure nat))),
    render {| squares := VArr [VStr "X"; VStr " "; VStr " "; VStr " "; VStr " ";
                               VStr " "; VStr " "; VStr " "; VStr " "];
              disabled := VBool false; bsSize := VStr "large"; onClick := 0%nat |}
    = Ok rows
    /\ map (fun b => argument (btn_onClick b)) (List.concat rows) = seq 0 9.
Proof.
  destruct (proj1 (@Board_render_grid nat
                     {| squares := VArr [VStr "X"; VStr " "; VStr " "; VStr " ";
                                         VStr " "; VStr " "; VStr " "; VStr " ";
                                         VStr " "];
                        disabled := VBool false; bsSize := VStr "large";
                        onClick := 0%nat |})
              _ eq_refl)
    as (rows & Hrows & _ & Hclicks & _).
  exists rows. split; [exact Hrows|exact Hclicks].
Defined.

(** The sample record on the screen: X in the first place, '-' in the
    second. *)
Lemma Board_shows_decoded_board_witness :
  exists (st : TicTacToeGameState) (rows : list (list (ButtonElement (Closure nat)))),
    _getGameState (sample_account x08 x01) = Ok st
    /\ render {| squares := board st; disabled := VBool false;
                 bsSize := VStr "xsmall"; onClick := 0%nat |}
       = Ok rows
    /\ (forall b, nth_error (List.concat rows) 0 = Some b -> btn_children b = VStr "X")
    /\ (forall b, nth_error (List.concat rows) 1 = Some b -> btn_children b = VStr "-").
Proof.
  eexists.
  destruct (@Board_shows_decoded_board sample_runtime nat
              {| squares := VArr [VStr "X"; VStr " "; VStr " "; VStr " "; VStr "O";
                                  VStr " "; VStr " "; VStr " "; VStr " "];
                 disabled := VBool false;
                 bsSize := VStr "xsmall"; onClick := 0%nat |}
              (sample_account x08 x01) _ _ _ eq_refl eq_refl eq_refl eq_refl)
    as (rows & Hrows & Hshown).
  exists rows. split; [reflexivity|]. split; [exact Hrows|].
  split; intros b Hb; apply Hshown in Hb; apply Hb.
Defined.
